(** * respond/collector.go: the respondd collector

    A shallow embedding of [src/respond/collector.go] and the properties of
    its collection pipeline: node identifier extraction, per-message error
    absorption, dispatch to the registry and the sink, the start and close
    protocol, the request datagram, the global statistics worker and the
    bounded response queue.

    Go strings are byte sequences, so [string] (a list of 8-bit [ascii]) is
    used for them and [String.length] is Go's [len]. A panic is a result of
    its own, next to a normal return. Goroutines are tasks of a small-step
    interleaving semantics; everything the collector does to the outside
    (socket writes, log lines, registry and sink calls, channel closes,
    tickers) is recorded, in order, in a trace. *)

From Stdlib Require Import Strings.String Strings.Ascii Strings.Byte.
From Stdlib Require Import Lists.List ZArith Lia Bool PeanoNat.
Import ListNotations.
Local Open Scope string_scope.
Local Open Scope list_scope.

Set Implicit Arguments.

(** ** Go values shared by all packages *)

Definition bytes := list byte.

(** An [error] value, identified with the text of its [Error()] method. *)
Definition Error := string.

(** [time.Time] (here [Timestamp]) and [time.Duration] are 64-bit counts of
    nanoseconds; the collector never does arithmetic on them. *)
Definition Timestamp := Z.
Definition Duration := Z.

Module time.
Definition Second : Duration := 1000000000%Z.
Definition Minute : Duration := (60 * Second)%Z.
End time.

(** ** Channels

    A buffered Go channel: the entries waiting in it (oldest first), its
    capacity and whether it has been closed. *)

Record Chan (A : Type) : Type := mkChan {
  buf : list A;
  cap : nat;
  closed : bool
}.

Section Channels.
Variable A : Type.

(** [make(chan A, n)] *)
Definition make_chan (n : nat) : Chan A :=
  {| buf := []; cap := n; closed := false |}.

Inductive SendResult : Type :=
| Sent (q : Chan A)       (* the entry is in the channel *)
| SendBlocks              (* buffer full: the sender waits *)
| SendPanics.             (* send on closed channel *)

(** [q <- x] *)
Definition chan_send (q : Chan A) (x : A) : SendResult :=
  if closed q then SendPanics
  else if Nat.ltb (List.length (buf q)) (cap q)
       then Sent {| buf := buf q ++ [x]; cap := cap q; closed := closed q |}
       else SendBlocks.

Inductive RecvResult : Type :=
| Received (x : A) (q : Chan A)
| RecvBlocks              (* empty and open: the receiver waits *)
| RecvClosed.             (* empty and closed: [range] ends, [<-q] is ready *)

(** [<-q], and one round of [for x := range q] *)
Definition chan_recv (q : Chan A) : RecvResult :=
  match buf q with
  | x :: rest => Received x {| buf := rest; cap := cap q; closed := closed q |}
  | [] => if closed q then RecvClosed else RecvBlocks
  end.

(** [close(q)]; [None] is the panic of closing a closed channel. *)
Definition chan_close (q : Chan A) : option (Chan A) :=
  if closed q then None
  else Some {| buf := buf q; cap := cap q; closed := true |}.

End Channels.

Arguments SendBlocks {A}.
Arguments SendPanics {A}.
Arguments RecvBlocks {A}.
Arguments RecvClosed {A}.

(** ** The imported packages

    The collector reads these packages through a handful of types and
    functions; they are kept abstract. *)

Module data.
(** The three sections of a response. Each carries a [NodeID] string; the
    collector reads no other field of them. *)
Class Structs : Type := {
  NodeInfo : Type;
  Statistics : Type;
  Neighbours : Type;
  NodeInfo_NodeID : NodeInfo -> string;
  Statistics_NodeID : Statistics -> string;
  Neighbours_NodeID : Neighbours -> string
}.
End data.

(** [data.ResponseData]: three pointers, [None] for [nil]. *)
Record ResponseData `{data.Structs} : Type := mkResponseData {
  NodeInfo : option data.NodeInfo;
  Statistics : option data.Statistics;
  Neighbours : option data.Neighbours
}.

Module models.
(** [models.Nodes] is the registry, [models.Node] one merged entry of it.
    [Update] merges a response into the registry and returns the merged
    entry. [GlobalStats] is the aggregate of [NewGlobalStats]. *)
Class Registry `{data.Structs} : Type := {
  Nodes : Type;
  Node : Type;
  Node_Statistics : Node -> option data.Statistics;
  Update : Nodes -> string -> ResponseData -> Node * Nodes;
  GlobalStats : Type;
  NewGlobalStats : Nodes -> GlobalStats;
  FieldMap : Type;
  Fields : GlobalStats -> FieldMap;
  CounterMap : Type;
  Firmwares : GlobalStats -> CounterMap;
  Models : GlobalStats -> CounterMap
}.
End models.

Module database.
(** [database.DB] is the sink; its three measurement names are constants
    of that package. *)
Class Sink : Type := {
  DB : Type;
  Tags : Type;
  MeasurementGlobal : string;
  MeasurementFirmware : string;
  MeasurementModel : string
}.
End database.

Module net.
(** [ResolveUDPAddr network address] and [JoinHostPort host port]. *)
Class Stack : Type := {
  UDPAddr : Type;
  UDPAddr_String : UDPAddr -> string;
  ResolveUDPAddr : string -> string -> UDPAddr + Error;
  JoinHostPort : string -> string -> string
}.
End net.

(** Constants of package [respond] that are declared next to
    [collector.go], and the decoder that [parse] runs: a raw deflate reader
    feeding [json.Decoder.Decode] into a fresh [ResponseData]. *)
Class Respond `{data.Structs} : Type := {
  multiCastGroup : string;
  port : string;
  maxDataGramSize : nat;
  flate_json_Decode : bytes -> ResponseData * option Error
}.

(** ** Results *)

Inductive result (A : Type) : Type :=
| Ok (a : A)
| Panic (v : string).

Arguments Panic {A} v.

Section Data.
Context {DS : data.Structs} {RG : @models.Registry DS} {SK : database.Sink}.
Context {NS : net.Stack} {RS : @Respond DS}.

(** ** The data of the collector *)

(** [Response]: a received datagram and where it came from. *)
Record Response : Type := mkResponse {
  Address : net.UDPAddr;
  Raw : bytes
}.

(** The socket. What it receives and whether a write succeeds is decided by
    the [World]. [readBuffer] is the size asked of [SetReadBuffer], whose
    result the code drops; it is not the size the socket ends up with, and
    nothing reads it. *)
Record UDPConn : Type := mkUDPConn {
  conn_closed : bool;
  readBuffer : nat
}.

Record Collector : Type := mkCollector {
  connection : UDPConn;
  queue : Chan Response;
  multicastAddr : string;
  db : option database.DB;
  nodes : models.Nodes;
  interval : Duration;
  stop : Chan unit
}.

(** A goroutine, by the place it has reached in its function. *)
Inductive Task : Type :=
| receiver_read                  (* [receiver], at [ReadFromUDP] *)
| receiver_send (r : Response)   (* [receiver], at [coll.queue <- r] *)
| parser_range                   (* [parser], at its [range] *)
| globalStatsWorker_entry        (* [globalStatsWorker], before [NewTicker] *)
| globalStatsWorker_select       (* [globalStatsWorker], at its [select] *)
| Start_func                     (* the function literal of [Start] *)
| sender_entry                   (* [sender], before [NewTicker] *)
| sender_select.                 (* [sender], at its [select] *)

(** The case of a [select] that fires. *)
Inductive SelectCase : Type :=
| CaseStop      (* [<-coll.stop] *)
| CaseTick.     (* [<-ticker.C] *)

Inductive ChanName : Type := ch_stop | ch_queue.

Inductive Event : Type :=
| EvWriteToUDP (b : bytes) (addr : net.UDPAddr) (err : option Error)
| EvLogPrintln (args : list string)
| EvLogPrintf (format : string) (args : list string)
| EvLogPanic (err : Error)
| EvUpdate (nodeID : string) (res : ResponseData)
| EvAdd (nodeID : string) (node : models.Node)
| EvAddPoint (name : string) (tags : option database.Tags)
    (fields : models.FieldMap) (t : Timestamp)
| EvAddCounterMap (name : string) (m : models.CounterMap)
| EvClose (c : ChanName)
| EvConnClose
| EvNewTicker (d : Duration)
| EvTickerStop.

(** What the collector does not decide: whether the socket can be opened,
    the datagrams (or read errors) the socket will deliver, the outcomes of
    the coming writes, and the clock. *)
Record World : Type := mkWorld {
  listen_err : option Error;
  inbox : list (bytes * net.UDPAddr + Error);
  write_errs : list (option Error);
  now : Timestamp
}.

Record State : Type := mkState {
  coll : Collector;
  trace : list Event;
  goroutines : list Task;
  world : World
}.

Definition set_connection (c : UDPConn) (s : State) : State :=
  let k := coll s in
  {| coll := {| connection := c; queue := queue k;
                multicastAddr := multicastAddr k; db := db k;
                nodes := nodes k; interval := interval k; stop := stop k |};
     trace := trace s; goroutines := goroutines s; world := world s |}.

Definition set_queue (q : Chan Response) (s : State) : State :=
  let k := coll s in
  {| coll := {| connection := connection k; queue := q;
                multicastAddr := multicastAddr k; db := db k;
                nodes := nodes k; interval := interval k; stop := stop k |};
     trace := trace s; goroutines := goroutines s; world := world s |}.

Definition set_nodes (n : models.Nodes) (s : State) : State :=
  let k := coll s in
  {| coll := {| connection := connection k; queue := queue k;
                multicastAddr := multicastAddr k; db := db k;
                nodes := n; interval := interval k; stop := stop k |};
     trace := trace s; goroutines := goroutines s; world := world s |}.

Definition set_interval (d : Duration) (s : State) : State :=
  let k := coll s in
  {| coll := {| connection := connection k; queue := queue k;
                multicastAddr := multicastAddr k; db := db k;
                nodes := nodes k; interval := d; stop := stop k |};
     trace := trace s; goroutines := goroutines s; world := world s |}.

Definition set_stop (c : Chan unit) (s : State) : State :=
  let k := coll s in
  {| coll := {| connection := connection k; queue := queue k;
                multicastAddr := multicastAddr k; db := db k;
                nodes := nodes k; interval := interval k; stop := c |};
     trace := trace s; goroutines := goroutines s; world := world s |}.

Definition set_goroutines (g : list Task) (s : State) : State :=
  {| coll := coll s; trace := trace s; goroutines := g; world := world s |}.

Definition set_world (w : World) (s : State) : State :=
  {| coll := coll s; trace := trace s; goroutines := goroutines s;
     world := w |}.

(** ** The monad of the collector's code: state, and a panic that keeps the
    state reached. *)

Definition Go (A : Type) : Type := State -> result A * State.

Definition ret {A : Type} (a : A) : Go A := fun s => (Ok a, s).

Definition bind {A B : Type} (m : Go A) (k : A -> Go B) : Go B :=
  fun s =>
    match m s with
    | (Ok a, s') => k a s'
    | (Panic v, s') => (Panic v, s')
    end.

Definition panic {A : Type} (v : string) : Go A := fun s => (Panic v, s).

Definition get : Go Collector := fun s => (Ok (coll s), s).

Definition emit (e : Event) : Go unit :=
  fun s => (Ok tt, {| coll := coll s; trace := trace s ++ [e];
                      goroutines := goroutines s; world := world s |}).

(** The [go] statement. *)
Definition go (t : Task) : Go unit :=
  fun s => (Ok tt, set_goroutines (goroutines s ++ [t]) s).

End Data.

Declare Scope go_scope.
Delimit Scope go_scope with go.
Notation "x <- m ;; k" := (bind m (fun x => k))
  (at level 61, m at next level, right associativity) : go_scope.
Notation "m ;; k" := (bind m (fun _ => k))
  (at level 61, right associativity) : go_scope.
Local Open Scope go_scope.

(** ** The code of [collector.go] *)

Section Code.
Context {DS : data.Structs} {RG : @models.Registry DS} {SK : database.Sink}.
Context {NS : net.Stack} {RS : @Respond DS}.

(** *** Calls into the imported packages *)

Definition log_Println (args : list string) : Go unit :=
  emit (EvLogPrintln args).

Definition log_Printf (format : string) (args : list string) : Go unit :=
  emit (EvLogPrintf format args).

(** [log.Panic(err)] prints, then panics with the printed text. *)
Definition log_Panic {A : Type} (err : Error) : Go A :=
  emit (EvLogPanic err) ;; panic err.

(** [coll.connection.WriteToUDP(b, addr)]: fails on a closed socket,
    otherwise as the world decides; a write without a decided outcome
    succeeds. *)
Definition WriteToUDP (b : bytes) (addr : net.UDPAddr) : Go (option Error) :=
  fun s =>
    let w := world s in
    if conn_closed (connection (coll s))
    then let err := Some "use of closed network connection" in
         (Ok err, {| coll := coll s;
                     trace := trace s ++ [EvWriteToUDP b addr err];
                     goroutines := goroutines s; world := w |})
    else let err := hd None (write_errs w) in
         (Ok err, {| coll := coll s;
                     trace := trace s ++ [EvWriteToUDP b addr err];
                     goroutines := goroutines s;
                     world := {| listen_err := listen_err w;
                                 inbox := inbox w;
                                 write_errs := tl (write_errs w);
                                 now := now w |} |}).

(** [coll.connection.ReadFromUDP(buf)] with [size] the length of [buf]:
    [None] while the read blocks; an error on a closed socket; otherwise the
    next datagram, cut to the buffer, or the next read error. The bytes
    returned are the [n] bytes written to [buf]. *)
Definition ReadFromUDP (size : nat)
  : Go (option (bytes * net.UDPAddr + Error)) :=
  fun s =>
    let w := world s in
    if conn_closed (connection (coll s))
    then (Ok (Some (inr "use of closed network connection")), s)
    else match inbox w with
         | [] => (Ok None, s)
         | r :: rest =>
             let s' := set_world {| listen_err := listen_err w;
                                    inbox := rest;
                                    write_errs := write_errs w;
                                    now := now w |} s in
             match r with
             | inl (d, src) => (Ok (Some (inl (firstn size d, src))), s')
             | inr err => (Ok (Some (inr err)), s')
             end
         end.

(** [coll.connection.Close()]; its error is not looked at. *)
Definition connection_Close : Go unit :=
  fun s =>
    (emit EvConnClose)
      (set_connection {| conn_closed := true;
                         readBuffer := readBuffer (connection (coll s)) |} s).

Definition time_Now : Go Timestamp := fun s => (Ok (now (world s)), s).

(** [time.NewTicker(d)] panics on a non-positive period. *)
Definition time_NewTicker (d : Duration) : Go unit :=
  if (d <=? 0)%Z then panic "non-positive interval for NewTicker"
  else emit (EvNewTicker d).

Definition ticker_Stop : Go unit := emit EvTickerStop.

(** [coll.nodes.Update(nodeID, res)] *)
Definition nodes_Update (nodeID : string) (res : ResponseData)
  : Go models.Node :=
  fun s =>
    let (node, n') := models.Update (nodes (coll s)) nodeID res in
    (Ok node, set_nodes n' {| coll := coll s;
                              trace := trace s ++ [EvUpdate nodeID res];
                              goroutines := goroutines s;
                              world := world s |}).

(** The methods of [coll.db]. Called on a nil sink they dereference a nil
    pointer. *)
Definition db_call (e : Event) : Go unit :=
  c <- get ;;
  match db c with
  | None => panic "invalid memory address or nil pointer dereference"
  | Some _ => emit e
  end.

Definition db_Add (nodeID : string) (node : models.Node) : Go unit :=
  db_call (EvAdd nodeID node).

Definition db_AddPoint (name : string) (tags : option database.Tags)
  (fields : models.FieldMap) (t : Timestamp) : Go unit :=
  db_call (EvAddPoint name tags fields t).

Definition db_AddCounterMap (name : string) (m : models.CounterMap)
  : Go unit :=
  db_call (EvAddCounterMap name m).

(** [close(coll.stop)] and [close(coll.queue)] *)
Definition close_stop : Go unit :=
  fun s =>
    match chan_close (stop (coll s)) with
    | None => (Panic "close of closed channel", s)
    | Some c => emit (EvClose ch_stop) (set_stop c s)
    end.

Definition close_queue : Go unit :=
  fun s =>
    match chan_close (queue (coll s)) with
    | None => (Panic "close of closed channel", s)
    | Some q => emit (EvClose ch_queue) (set_queue q s)
    end.

(** *** NewCollector *)

Definition NewCollector (db : option database.DB) (nodes : models.Nodes)
  (iface : string) (w : World) : result State :=
  match net.ResolveUDPAddr "udp" "[::]:0" with
  | inr err => Panic err
  | inl addr =>
      match listen_err w with
      | Some err => Panic err
      | None =>
          let conn := {| conn_closed := false;
                         readBuffer := maxDataGramSize |} in
          let collector :=
            {| connection := conn;
               db := db;
               nodes := nodes;
               multicastAddr :=
                 net.JoinHostPort (multiCastGroup ++ "%" ++ iface) port;
               queue := make_chan Response 400;
               stop := make_chan unit 0;
               interval := 0%Z |} in
          let spawn :=
            go receiver_read ;;
            go parser_range ;;
            match db with
            | Some _ => go globalStatsWorker_entry
            | None => ret tt
            end in
          Ok (snd (spawn {| coll := collector; trace := [];
                            goroutines := []; world := w |}))
      end
  end.

(** *** Start and Close *)

Definition Start (interval' : Duration) : Go unit :=
  c <- get ;;
  if negb (interval c =? 0)%Z then panic "already started"
  else if (interval' <=? 0)%Z then panic "invalid collector interval"
  else (fun s => (Ok tt, set_interval interval' s)) ;;
       go Start_func.

Definition Close : Go unit :=
  close_stop ;;
  connection_Close ;;
  close_queue.

(** *** Sending *)

Definition request : bytes :=
  list_byte_of_string "GET nodeinfo statistics neighbours".

Definition SendPacket (address : string) : Go unit :=
  match net.ResolveUDPAddr "udp" address with
  | inr err => log_Panic err
  | inl addr =>
      err <- WriteToUDP request addr ;;
      match err with
      | Some e => log_Println ["WriteToUDP failed:"; e]
      | None => ret tt
      end
  end.

Definition sendOnce : Go unit :=
  c <- get ;;
  SendPacket (multicastAddr c).

(** *** Parsing and saving *)

Definition parse (res : Response) : ResponseData * option Error :=
  flate_json_Decode (Raw res).

(** The search for the NodeID at the head of [saveResponse]; a Go string
    that is never assigned is empty. *)
Definition searchNodeID (res : ResponseData) : string :=
  match NodeInfo res with
  | Some val => data.NodeInfo_NodeID val
  | None =>
      match Neighbours res with
      | Some val => data.Neighbours_NodeID val
      | None =>
          match Statistics res with
          | Some val => data.Statistics_NodeID val
          | None => ""
          end
      end
  end.

Definition saveResponse (addr : net.UDPAddr) (res : ResponseData)
  : Go unit :=
  let nodeID := searchNodeID res in
  if negb (String.length nodeID =? 12)%nat
  then log_Printf "invalid NodeID '%s' from %s"
         [nodeID; net.UDPAddr_String addr]
  else
    node <- nodes_Update nodeID res ;;
    c <- get ;;
    match db c, models.Node_Statistics node with
    | Some _, Some _ => db_Add nodeID node
    | _, _ => ret tt
    end.

Definition newline : string := String (ascii_of_nat 10) EmptyString.

(** The body of the [range] loop of [parser]. *)
Definition parser_body (obj : Response) : Go unit :=
  match parse obj with
  | (_, Some err) =>
      log_Println ["unable to decode response from";
                   net.UDPAddr_String (Address obj); err; newline;
                   string_of_list_byte (Raw obj)]
  | (data, None) => saveResponse (Address obj) data
  end.

(** *** Global statistics *)

Definition saveGlobalStats : Go unit :=
  c <- get ;;
  let stats := models.NewGlobalStats (nodes c) in
  t <- time_Now ;;
  db_AddPoint database.MeasurementGlobal None (models.Fields stats) t ;;
  db_AddCounterMap database.MeasurementFirmware (models.Firmwares stats) ;;
  db_AddCounterMap database.MeasurementModel (models.Models stats).

(** ** Goroutines, one step at a time *)

(** Where a goroutine is after a step. *)
Inductive Next : Type :=
| Goto (t : Task)
| Blocked
| Returned.

Definition receiver_read_step : Go Next :=
  r <- ReadFromUDP maxDataGramSize ;;
  match r with
  | None => ret Blocked
  | Some (inr err) => log_Println ["ReadFromUDP failed:"; err] ;; ret Returned
  | Some (inl (raw, src)) =>
      ret (Goto (receiver_send {| Address := src; Raw := raw |}))
  end.

Definition receiver_send_step (r : Response) : Go Next :=
  fun s =>
    match chan_send (queue (coll s)) r with
    | Sent q => (Ok (Goto receiver_read), set_queue q s)
    | SendBlocks => (Ok Blocked, s)
    | SendPanics => (Panic "send on closed channel", s)
    end.

Definition parser_step : Go Next :=
  fun s =>
    match chan_recv (queue (coll s)) with
    | Received obj q =>
        (parser_body obj ;; ret (Goto parser_range)) (set_queue q s)
    | RecvClosed => (Ok Returned, s)
    | RecvBlocks => (Ok Blocked, s)
    end.

(** A [select] case on [coll.stop] can fire once the channel is closed. *)
Definition stop_ready (s : State) : bool :=
  match chan_recv (stop (coll s)) with
  | RecvBlocks => false
  | _ => true
  end.

Definition sender_select_step (c : SelectCase) : Go Next :=
  match c with
  | CaseStop =>
      fun s => if stop_ready s then (ticker_Stop ;; ret Returned) s
               else (Ok Blocked, s)
  | CaseTick => sendOnce ;; ret (Goto sender_select)
  end.

Definition globalStatsWorker_select_step (c : SelectCase) : Go Next :=
  match c with
  | CaseStop =>
      fun s => if stop_ready s then (ticker_Stop ;; ret Returned) s
               else (Ok Blocked, s)
  | CaseTick => saveGlobalStats ;; ret (Goto globalStatsWorker_select)
  end.

(** One step of the goroutine at [t]; [c] is the [select] case that fires,
    for the two places that wait in a [select]. *)
Definition task_step (t : Task) (c : SelectCase) : Go Next :=
  match t with
  | receiver_read => receiver_read_step
  | receiver_send r => receiver_send_step r
  | parser_range => parser_step
  | globalStatsWorker_entry =>
      time_NewTicker time.Minute ;; ret (Goto globalStatsWorker_select)
  | globalStatsWorker_select => globalStatsWorker_select_step c
  | Start_func => sendOnce ;; ret (Goto sender_entry)
  | sender_entry =>
      k <- get ;; time_NewTicker (interval k) ;; ret (Goto sender_select)
  | sender_select => sender_select_step c
  end.

(** A goroutine run on its own for as many steps as there are cases in
    [cs], until it blocks, returns or panics. *)
Fixpoint run (cs : list SelectCase) (t : Task) : Go Next :=
  match cs with
  | [] => ret (Goto t)
  | c :: cs' =>
      n <- task_step t c ;;
      match n with
      | Goto t' => run cs' t'
      | Blocked => ret Blocked
      | Returned => ret Returned
      end
  end.

(** The four loops of the collector, each run on its own from its entry;
    a case of [cs] is used up by every step, also by the steps that do not
    wait in a [select]. *)
Definition receiver (cs : list SelectCase) : Go Next := run cs receiver_read.

Definition parser (cs : list SelectCase) : Go Next := run cs parser_range.

Definition sender (cs : list SelectCase) : Go Next := run cs sender_entry.

Definition globalStatsWorker (cs : list SelectCase) : Go Next :=
  run cs globalStatsWorker_entry.

(** ** The process: interleaved goroutines and the calls of the owner *)

Fixpoint replace_nth (i : nat) (t : Task) (l : list Task) : list Task :=
  match l, i with
  | [], _ => []
  | _ :: l', O => t :: l'
  | x :: l', S i' => x :: replace_nth i' t l'
  end.

Fixpoint remove_nth (i : nat) (l : list Task) : list Task :=
  match l, i with
  | [], _ => []
  | _ :: l', O => l'
  | x :: l', S i' => x :: remove_nth i' l'
  end.

Definition settle (i : nat) (n : Next) (s : State) : State :=
  match n with
  | Goto t => set_goroutines (replace_nth i t (goroutines s)) s
  | Blocked => s
  | Returned => set_goroutines (remove_nth i (goroutines s)) s
  end.

(** A step of the process: a goroutine moves (a panic in a goroutine ends
    them all); the owner calls [Start], [SendPacket] or [Close], the three
    statements of [Close] being steps of their own so that goroutines may
    run in between; or the world changes. *)
Inductive step : State -> State -> Prop :=
| step_task : forall s i t c n s',
    nth_error (goroutines s) i = Some t ->
    task_step t c s = (Ok n, s') ->
    step s (settle i n s')
| step_task_panic : forall s i t c v s',
    nth_error (goroutines s) i = Some t ->
    task_step t c s = (Panic v, s') ->
    step s (set_goroutines [] s')
| step_Start : forall s d r s',
    Start d s = (r, s') -> step s s'
| step_SendPacket : forall s address r s',
    SendPacket address s = (r, s') -> step s s'
| step_close_stop : forall s r s',
    close_stop s = (r, s') -> step s s'
| step_connection_Close : forall s r s',
    connection_Close s = (r, s') -> step s s'
| step_close_queue : forall s r s',
    close_queue s = (r, s') -> step s s'
| step_world : forall s w,
    step s (set_world w s).

Inductive steps : State -> State -> Prop :=
| steps_refl : forall s, steps s s
| steps_step : forall s s' s'', steps s s' -> step s' s'' -> steps s s''.

(** The states of a collector made by [NewCollector]. *)
Definition reachable (s : State) : Prop :=
  exists db nodes iface w s0,
    NewCollector db nodes iface w = Ok s0 /\ steps s0 s.

End Code.

(** ** The rule of the specification for the NodeID

    The sections in the fixed order nodeInfo, neighbours, statistics, as a
    list of the identifiers of those that are present; the first present
    one supplies the NodeID. *)

Section Rule.
Context {DS : data.Structs}.

Definition section_ids (res : ResponseData) : list (option string) :=
  [ option_map data.NodeInfo_NodeID (NodeInfo res);
    option_map data.Neighbours_NodeID (Neighbours res);
    option_map data.Statistics_NodeID (Statistics res) ].

Fixpoint first_present (l : list (option string)) : option string :=
  match l with
  | [] => None
  | Some i :: _ => Some i
  | None :: l' => first_present l'
  end.

Definition candidate_NodeID (res : ResponseData) : option string :=
  first_present (section_ids res).

End Rule.

(** ** What is read off a trace *)

Section Observations.
Context {DS : data.Structs} {RG : @models.Registry DS} {SK : database.Sink}.
Context {NS : net.Stack}.

(** The NodeID a registry or sink call is made with. *)
Definition call_nodeID (e : Event) : option string :=
  match e with
  | EvUpdate i _ => Some i
  | EvAdd i _ => Some i
  | _ => None
  end.

Definition is_Update (e : Event) : bool :=
  match e with EvUpdate _ _ => true | _ => false end.

Definition is_Add (e : Event) : bool :=
  match e with EvAdd _ _ => true | _ => false end.

(** The mark that [saveResponse] leaves for a payload it is given: the
    [Update] of the registry, or the warning about its NodeID. *)
Definition is_saved (e : Event) : bool :=
  match e with
  | EvUpdate _ _ | EvLogPrintf _ _ => true
  | _ => false
  end.

(** The three writes of the global statistics, and any write to the sink. *)
Definition is_global_write (e : Event) : bool :=
  match e with
  | EvAddPoint _ _ _ _ | EvAddCounterMap _ _ => true
  | _ => false
  end.

Definition is_sink_write (e : Event) : bool :=
  is_Add e || is_global_write e.

(** The datagrams that left the socket: the writes that did not fail. *)
Definition datagrams (tr : list Event) : list (bytes * net.UDPAddr) :=
  flat_map (fun e => match e with
                     | EvWriteToUDP b a None => [(b, a)]
                     | _ => []
                     end) tr.

(** The calls of [WriteToUDP], whatever their outcome. *)
Definition writes (tr : list Event) : list (bytes * net.UDPAddr) :=
  flat_map (fun e => match e with
                     | EvWriteToUDP b a _ => [(b, a)]
                     | _ => []
                     end) tr.

(** The goroutines that run, or are about to run, the periodic sender and
    the global statistics worker. *)
Definition is_sender (t : Task) : bool :=
  match t with
  | Start_func | sender_entry | sender_select => true
  | _ => false
  end.

Definition is_globalStatsWorker (t : Task) : bool :=
  match t with
  | globalStatsWorker_entry | globalStatsWorker_select => true
  | _ => false
  end.

(** The goroutine of the receiver, and that of the parser. *)
Definition is_receiver (t : Task) : bool :=
  match t with
  | receiver_read | receiver_send _ => true
  | _ => false
  end.

Definition is_parser (t : Task) : bool :=
  match t with
  | parser_range => true
  | _ => false
  end.

(** The tickers made. *)
Definition tickers (tr : list Event) : list Duration :=
  flat_map (fun e => match e with
                     | EvNewTicker d => [d]
                     | _ => []
                     end) tr.

End Observations.

Section Runs.
Context {DS : data.Structs} {RG : @models.Registry DS} {SK : database.Sink}.
Context {NS : net.Stack} {RS : @Respond DS}.

(** The number of goroutines of a kind. *)
Definition count (f : Task -> bool) (l : list Task) : nat :=
  List.length (filter f l).

(** The outcome of a write to the socket in state [s]. *)
Definition write_outcome (s : State) : option Error :=
  if conn_closed (connection (coll s))
  then Some "use of closed network connection"
  else hd None (write_errs (world s)).

(** What a step may add to the trace: every write to the socket carries the
    request, and without a sink nothing is written to the sink. *)
Definition quiet_events (d : option database.DB) (new : list Event) : Prop :=
  (forall p, In p (writes new) -> fst p = request) /\
  (d = None -> filter is_sink_write new = []).

(** The entry that the receiver queues for a datagram [d] from [src]: a
    copy of the bytes that fit its buffer, and the source address. *)
Definition to_Response (p : bytes * net.UDPAddr) : Response :=
  {| Address := snd p; Raw := firstn maxDataGramSize (fst p) |}.

(** The registry after the payload of the entry [obj] is merged into it. *)
Definition merge (ns : models.Nodes) (obj : Response) : models.Nodes :=
  snd (models.Update ns (searchNodeID (fst (parse obj))) (fst (parse obj))).

(** The [Update] that the parser makes for an entry it accepts. *)
Definition update_of (obj : Response) : Event :=
  EvUpdate (searchNodeID (fst (parse obj))) (fst (parse obj)).

(** The entry that a goroutine holds outside the queue: the receiver at
    its push holds the one it is about to queue. *)
Definition held_of (t : Task) : list Response :=
  match t with
  | receiver_send r => [r]
  | _ => []
  end.

Definition held (l : list Task) : list Response := flat_map held_of l.

(** The entries that the datagrams still at the socket will give. *)
Definition arrived (l : list (bytes * net.UDPAddr + Error))
  : list Response :=
  flat_map (fun x => match x with
                     | inl p => [to_Response p]
                     | inr _ => []
                     end) l.

(** What is on its way to the parser, oldest first: the queue, then the
    entry that the receiver holds, then the datagrams at the socket. *)
Definition pending (s : State) : list Response :=
  buf (queue (coll s)) ++ held (goroutines s) ++ arrived (inbox (world s)).

(** A run of the goroutines, in any order, in which none panics and
    nothing else happens. *)
Inductive runs : State -> State -> Prop :=
| runs_refl : forall s, runs s s
| runs_task : forall s s' i t c n s'',
    runs s s' ->
    nth_error (goroutines s') i = Some t ->
    task_step t c s' = (Ok n, s'') ->
    runs s (settle i n s'').

(** The world with its inbox replaced. *)
Definition with_inbox (l : list (bytes * net.UDPAddr + Error)) (w : World)
  : World :=
  {| listen_err := listen_err w; inbox := l; write_errs := write_errs w;
     now := now w |}.

(** A queued entry that decodes. *)
Definition decodes (obj : Response) : bool :=
  match snd (parse obj) with
  | None => true
  | Some _ => false
  end.

(** A queued entry that decodes to a payload with a NodeID of 12 bytes. *)
Definition accepted (obj : Response) : bool :=
  match parse obj with
  | (d, None) => (String.length (searchNodeID d) =? 12)%nat
  | (_, Some _) => false
  end.

(** The parser taking the entries [objs] off the queue, oldest first, and
    running the body of its loop on each. *)
Fixpoint drain (objs : list Response) (s : State) : State :=
  match objs with
  | [] => s
  | obj :: rest =>
      drain rest
        (snd (parser_body obj
                (set_queue {| buf := rest; cap := cap (queue (coll s));
                              closed := closed (queue (coll s)) |} s)))
  end.

End Runs.

Arguments count : simpl never.

(** ** A small instance of the imported packages, to run the code on

    A section is its NodeID; the registry keeps the responses it was given
    and a merged node is the response itself; addresses are their text and
    only a few of them resolve. *)

Module Demo.

Definition structs : data.Structs :=
  {| data.NodeInfo := string; data.Statistics := string;
     data.Neighbours := string;
     data.NodeInfo_NodeID := fun x => x;
     data.Statistics_NodeID := fun x => x;
     data.Neighbours_NodeID := fun x => x |}.

Definition registry : @models.Registry structs :=
  {| models.Nodes := list (string * @ResponseData structs);
     models.Node := @ResponseData structs;
     models.Node_Statistics := fun n => @Statistics structs n;
     models.Update := fun ns i res => (res, (i, res) :: ns);
     models.GlobalStats := nat;
     models.NewGlobalStats := fun ns => List.length ns;
     models.FieldMap := nat;
     models.Fields := fun g => g;
     models.CounterMap := list (string * nat);
     models.Firmwares := fun _ => [];
     models.Models := fun _ => [] |}.

Definition sink : database.Sink :=
  {| database.DB := unit; database.Tags := unit;
     database.MeasurementGlobal := "global";
     database.MeasurementFirmware := "firmware";
     database.MeasurementModel := "model" |}.

Definition resolvable : list string :=
  [ "[::]:0"; "[ff02:0:0:0:0:0:2:1001%eth0]:1001"; "[fe80::1%eth0]:1001" ].

Definition stack : net.Stack :=
  {| net.UDPAddr := string;
     net.UDPAddr_String := fun a => a;
     net.ResolveUDPAddr := fun _ address =>
       if existsb (String.eqb address) resolvable then inl address
       else inr ("address " ++ address ++ ": missing port in address")%string;
     net.JoinHostPort := fun host port =>
       ("[" ++ host ++ "]:" ++ port)%string |}.

(** The decoder of the instance reads a datagram of 1 + 12 bytes: a tag
    byte naming the section, then the NodeID; anything else fails. *)
Definition decode (raw : bytes) : @ResponseData structs * option Error :=
  let empty := @mkResponseData structs None None None in
  match raw with
  | tag :: rest =>
      let i := string_of_list_byte rest in
      match Byte.to_nat tag with
      | 1 => (@mkResponseData structs (Some i) None None, None)
      | 2 => (@mkResponseData structs None (Some i) None, None)
      | 3 => (@mkResponseData structs None None (Some i), None)
      | _ => (empty, Some "invalid character")
      end
  | [] => (empty, Some "EOF")
  end.

Definition respond : @Respond structs :=
  {| multiCastGroup := "ff02:0:0:0:0:0:2:1001";
     port := "1001";
     maxDataGramSize := 8192;
     flate_json_Decode := decode |}.

#[local] Existing Instance structs.
#[local] Existing Instance registry.
#[local] Existing Instance sink.
#[local] Existing Instance stack.
#[local] Existing Instance respond.

Definition quiet : World :=
  {| listen_err := None; inbox := []; write_errs := []; now := 0%Z |}.

Definition datagram (tag : byte) (i : string) : bytes :=
  tag :: list_byte_of_string i.

Definition peer : net.UDPAddr := "203.0.113.5:1234".

(** A world that delivers three datagrams: statistics of a node, bytes that
    do not decode, and neighbours with a NodeID that is too short. *)
Definition busy : World :=
  {| listen_err := None;
     inbox := [ inl (datagram x02 "aabbccddeeff", peer);
                inl ([xff; xfe], peer);
                inl (datagram x03 "short", peer) ];
     write_errs := [Some "network is unreachable"];
     now := 1700000000%Z |}.

Definition off : State :=
  {| coll := {| connection := {| conn_closed := true; readBuffer := 0 |};
                queue := make_chan Response 0;
                multicastAddr := "";
                db := None;
                nodes := [];
                interval := 0%Z;
                stop := make_chan unit 0 |};
     trace := []; goroutines := []; world := quiet |}.

(** The collector that [NewCollector] returns on an empty registry. *)
Definition boot (d : option database.DB) (iface : string) (w : World)
  : State :=
  match NewCollector d [] iface w with
  | Ok s => s
  | Panic _ => off
  end.

(** The collector after its receiver has queued the three datagrams. *)
Definition loaded (d : option database.DB) : State :=
  snd (receiver (repeat CaseTick 6) (boot d "eth0" busy)).

(** The collector after the global statistics worker has made its
    ticker. *)
Definition ticking : State :=
  settle 2 (Goto globalStatsWorker_select)
    (snd (task_step globalStatsWorker_entry CaseTick
            (boot (Some tt) "eth0" quiet))).

(** The three queued entries. *)
Definition stats_entry : Response :=
  {| Address := peer; Raw := datagram x02 "aabbccddeeff" |}.

Definition garbage : Response := {| Address := peer; Raw := [xff; xfe] |}.

Definition short : Response :=
  {| Address := peer; Raw := datagram x03 "short" |}.

(** The collector after its parser has handled the first entry. *)
Definition parsed_one : State :=
  snd (task_step parser_range CaseTick (loaded (Some tt))).

(** The collector after a request to a unicast address. *)
Definition requested : State :=
  snd (SendPacket "[fe80::1%eth0]:1001" (boot None "eth0" quiet)).

(** The collector after [Start] with an interval of one minute, and after
    the goroutine of [Start] has sent the first request. *)
Definition started : State :=
  snd (Start time.Minute (boot None "eth0" quiet)).

(** The collector after the receiver has read the first datagram and waits
    at its push. *)
Definition holding : State :=
  settle 0 (Goto (receiver_send stats_entry))
    (snd (task_step receiver_read CaseTick (boot (Some tt) "eth0" busy))).

(** A collector whose queue is full, with one more datagram at the
    socket. *)
Definition full : State :=
  set_queue {| buf := repeat garbage 400; cap := 400; closed := false |}
    (boot None "eth0" busy).

(** The collector after the receiver has queued the first datagram, and
    after it has read the second and waits at its push. *)
Definition queued_one : State :=
  settle 0 (Goto receiver_read)
    (snd (task_step (receiver_send stats_entry) CaseTick holding)).

Definition racing : State :=
  settle 0 (Goto (receiver_send garbage))
    (snd (task_step receiver_read CaseTick queued_one)).

(** The same collector after its parser has then handled the first
    entry, the receiver still waiting at its push. *)
Definition interleaved : State :=
  settle 1 (Goto parser_range)
    (snd (task_step parser_range CaseTick racing)).

(** The collector made for the interface "eth0]" after [Start]. *)
Definition misaddressed : State :=
  snd (Start time.Second (boot None "eth0]" quiet)).

(** The three datagrams of [busy]. *)
Definition arrivals : list (bytes * net.UDPAddr) :=
  [ (datagram x02 "aabbccddeeff", peer); ([xff; xfe], peer);
    (datagram x03 "short", peer) ].

(** The collector after [Close]. *)
Definition closed_down : State := snd (Close (loaded (Some tt))).

(** A payload with a nodeinfo and a statistics section that disagree. *)
Definition two_ids : ResponseData :=
  {| NodeInfo := Some "aabbccddeeff";
     Statistics := Some "112233445566";
     Neighbours := None |}.

End Demo.

(** * Properties *)

Unset Implicit Arguments.

Section Saving.
Context {DS : data.Structs} {RG : @models.Registry DS} {SK : database.Sink}.
Context {NS : net.Stack} {RS : @Respond DS}.

(** The search of [saveResponse] follows the rule of the specification. *)
Lemma searchNodeID_candidate (res : ResponseData) :
  searchNodeID res =
  match candidate_NodeID res with Some i => i | None => "" end.
Proof.
  unfold searchNodeID, candidate_NodeID, section_ids.
  destruct (NodeInfo res), (Neighbours res), (Statistics res); reflexivity.
Qed.

(** What [saveResponse] does on an identifier of the wrong length. *)
Lemma saveResponse_invalid (addr : net.UDPAddr) (res : ResponseData)
  (s : State) :
  String.length (searchNodeID res) <> 12 ->
  saveResponse addr res s =
  (Ok tt,
   {| coll := coll s;
      trace := trace s ++
        [EvLogPrintf "invalid NodeID '%s' from %s"
           [searchNodeID res; net.UDPAddr_String addr]];
      goroutines := goroutines s; world := world s |}).
Proof.
  intros Hlen. unfold saveResponse.
  destruct (Nat.eqb_spec (String.length (searchNodeID res)) 12) as [E | E];
    [contradiction | reflexivity].
Qed.

(** What [saveResponse] does on an identifier of length 12. *)
Lemma saveResponse_valid (addr : net.UDPAddr) (res : ResponseData)
  (s : State) :
  String.length (searchNodeID res) = 12 ->
  saveResponse addr res s =
  (Ok tt,
   let i := searchNodeID res in
   let r := models.Update (nodes (coll s)) i res in
   set_nodes (snd r)
     {| coll := coll s;
        trace := trace s ++ EvUpdate i res ::
          match db (coll s), models.Node_Statistics (fst r) with
          | Some _, Some _ => [EvAdd i (fst r)]
          | _, _ => []
          end;
        goroutines := goroutines s; world := world s |}).
Proof.
  intros Hlen. unfold saveResponse. rewrite Hlen. cbn [Nat.eqb negb].
  unfold bind, nodes_Update, get, db_Add, db_call, ret, emit, set_nodes.
  destruct (models.Update (nodes (coll s)) (searchNodeID res) res)
    as [node n'] eqn:EU.
  cbn [coll db trace goroutines world fst snd].
  destruct (db (coll s)) as [d |] eqn:Edb;
    [destruct (models.Node_Statistics node) eqn:Est |].
  - cbn. rewrite ?Edb. cbn. rewrite <- ?app_assoc. reflexivity.
  - cbn. rewrite ?Edb, ?app_nil_r. reflexivity.
  - cbn. reflexivity.
Qed.

(** The registry and sink calls that [saveResponse] adds to the trace all
    carry the identifier found by the search. *)
Lemma saveResponse_calls (addr : net.UDPAddr) (res : ResponseData)
  (s : State) :
  exists new,
    trace (snd (saveResponse addr res s)) = trace s ++ new /\
    forall e i, In e new -> call_nodeID e = Some i -> i = searchNodeID res.
Proof.
  destruct (Nat.eq_dec (String.length (searchNodeID res)) 12) as [E | E].
  - rewrite (saveResponse_valid addr res s E). cbn.
    eexists; split; [reflexivity |].
    intros e i [<- | Hin] Hc.
    + cbn in Hc. congruence.
    + destruct (db (coll s)); [| contradiction].
      destruct (models.Node_Statistics _); [| contradiction].
      destruct Hin as [<- | []]. cbn in Hc. congruence.
  - rewrite (saveResponse_invalid addr res s E). cbn.
    eexists; split; [reflexivity |].
    intros e i [<- | []] Hc. discriminate.
Qed.

(** The trace of [saveResponse], by the NodeID that its search finds. *)
Lemma saveResponse_trace (addr : net.UDPAddr) (res : ResponseData)
  (s : State) :
  let i := searchNodeID res in
  let node := fst (models.Update (nodes (coll s)) i res) in
  (String.length i = 12 ->
     exists adds,
       trace (snd (saveResponse addr res s)) =
         trace s ++ EvUpdate i res :: adds /\
       (adds = [] \/ adds = [EvAdd i node])) /\
  (String.length i <> 12 ->
     trace (snd (saveResponse addr res s)) =
       trace s ++ [EvLogPrintf "invalid NodeID '%s' from %s"
                     [i; net.UDPAddr_String addr]]).
Proof.
  intros i node. split; intros Hlen.
  - rewrite (saveResponse_valid addr res s Hlen). cbn. fold i. fold node.
    eexists. split; [reflexivity |].
    destruct (db (coll s)); [destruct (models.Node_Statistics node) |];
      auto.
  - rewrite (saveResponse_invalid addr res s Hlen). reflexivity.
Qed.

(** C1. The NodeID of a payload is taken from the first present section in
    the order nodeInfo, neighbours, statistics, and is empty (nothing is
    extracted) when no section is present. [saveResponse] uses that NodeID
    and no other: when it is 12 bytes long the first thing [saveResponse]
    does is the [Update] of the registry with that NodeID and the payload,
    followed by nothing or by the [Add] of that NodeID and the merged node;
    otherwise all it does is the warning that shows that NodeID. So for a
    payload with a nodeinfo and a statistics section of different
    identifiers, the [Update] (or the warning) carries the nodeinfo
    identifier, and no registry or sink call carries the statistics one. *)
Theorem C1_nodeid_priority (res : ResponseData) :
  searchNodeID res =
    match candidate_NodeID res with Some i => i | None => "" end
  /\ (forall ni, NodeInfo res = Some ni ->
        searchNodeID res = data.NodeInfo_NodeID ni)
  /\ (forall nb, NodeInfo res = None -> Neighbours res = Some nb ->
        searchNodeID res = data.Neighbours_NodeID nb)
  /\ (forall st, NodeInfo res = None -> Neighbours res = None ->
        Statistics res = Some st ->
        searchNodeID res = data.Statistics_NodeID st)
  /\ (NodeInfo res = None -> Neighbours res = None ->
        Statistics res = None ->
        candidate_NodeID res = None /\ searchNodeID res = "")
  /\ (forall addr s,
        let i := match candidate_NodeID res with
                 | Some i => i
                 | None => ""
                 end in
        let node := fst (models.Update (nodes (coll s)) i res) in
        (String.length i = 12 ->
           exists adds,
             trace (snd (saveResponse addr res s)) =
               trace s ++ EvUpdate i res :: adds /\
             (adds = [] \/ adds = [EvAdd i node])) /\
        (String.length i <> 12 ->
           trace (snd (saveResponse addr res s)) =
             trace s ++ [EvLogPrintf "invalid NodeID '%s' from %s"
                           [i; net.UDPAddr_String addr]]))
  /\ (forall ni st, NodeInfo res = Some ni -> Statistics res = Some st ->
        data.NodeInfo_NodeID ni <> data.Statistics_NodeID st ->
        forall addr s,
          let i := data.NodeInfo_NodeID ni in
          let node := fst (models.Update (nodes (coll s)) i res) in
          (String.length i = 12 ->
             exists adds,
               trace (snd (saveResponse addr res s)) =
                 trace s ++ EvUpdate i res :: adds /\
               (adds = [] \/ adds = [EvAdd i node])) /\
          (String.length i <> 12 ->
             trace (snd (saveResponse addr res s)) =
               trace s ++ [EvLogPrintf "invalid NodeID '%s' from %s"
                             [i; net.UDPAddr_String addr]]) /\
          exists new,
            trace (snd (saveResponse addr res s)) = trace s ++ new /\
            new <> [] /\
            forall e i', In e new -> call_nodeID e = Some i' ->
              i' = i /\ i' <> data.Statistics_NodeID st).
Proof.
  split; [apply searchNodeID_candidate |].
  split; [| split; [| split; [| split; [| split]]]].
  - intros ni H. unfold searchNodeID. rewrite H. reflexivity.
  - intros nb H1 H2. unfold searchNodeID. rewrite H1, H2. reflexivity.
  - intros st H1 H2 H3. unfold searchNodeID. rewrite H1, H2, H3.
    reflexivity.
  - intros H1 H2 H3. unfold searchNodeID, candidate_NodeID, section_ids.
    rewrite H1, H2, H3. split; reflexivity.
  - intros addr s. rewrite <- searchNodeID_candidate.
    apply saveResponse_trace.
  - intros ni st Hni Hst Hneq addr s i node.
    assert (Hi : searchNodeID res = i)
      by (unfold searchNodeID; rewrite Hni; reflexivity).
    pose proof (saveResponse_trace addr res s) as Ht.
    cbv zeta in Ht. rewrite Hi in Ht. fold node in Ht.
    destruct Ht as (Hv & Hinv).
    split; [exact Hv |]. split; [exact Hinv |].
    destruct (saveResponse_calls addr res s) as (new & Htr & Hids).
    exists new. split; [exact Htr |]. split.
    + intros ->. rewrite app_nil_r in Htr.
      destruct (Nat.eq_dec (String.length i) 12) as [E | E].
      * destruct (Hv E) as (adds & Ha & _). rewrite Htr in Ha.
        apply (f_equal (@List.length _)) in Ha.
        rewrite length_app in Ha. cbn in Ha. lia.
      * specialize (Hinv E). rewrite Htr in Hinv.
        apply (f_equal (@List.length _)) in Hinv.
        rewrite length_app in Hinv. cbn in Hinv. lia.
    + intros e i' Hin Hc. specialize (Hids e i' Hin Hc).
      rewrite Hi in Hids. subst i'. split; [reflexivity | exact Hneq].
Qed.

(** C2. A queued message that fails to decode, or whose NodeID is not 12
    bytes long (the empty NodeID of a payload without sections included),
    costs the parser one step: it adds one log line to the trace, naming the
    source address (and the error and raw bytes for a decode failure), makes
    no call to the registry or the sink, leaves the registry as it was, and
    goes on with the rest of the queue. *)
Theorem C2_per_message_errors_absorbed (s : State) (obj : Response)
  (rest : list Response) (c : SelectCase) :
  buf (queue (coll s)) = obj :: rest ->
  snd (parse obj) <> None \/
    String.length (searchNodeID (fst (parse obj))) <> 12 ->
  exists line s',
    task_step parser_range c s = (Ok (Goto parser_range), s')
    /\ trace s' = trace s ++ [line]
    /\ line =
       match snd (parse obj) with
       | Some err =>
           EvLogPrintln ["unable to decode response from";
                         net.UDPAddr_String (Address obj); err; newline;
                         string_of_list_byte (Raw obj)]
       | None =>
           EvLogPrintf "invalid NodeID '%s' from %s"
             [searchNodeID (fst (parse obj));
              net.UDPAddr_String (Address obj)]
       end
    /\ is_Update line = false /\ is_Add line = false
    /\ nodes (coll s') = nodes (coll s)
    /\ buf (queue (coll s')) = rest
    /\ goroutines s' = goroutines s
    /\ forall cs, parser (c :: cs) s = parser cs s'.
Proof.
  intros Hq Hbad.
  assert (Hstep : exists line s',
    parser_step s = (Ok (Goto parser_range), s')
    /\ trace s' = trace s ++ [line]
    /\ line =
       match snd (parse obj) with
       | Some err =>
           EvLogPrintln ["unable to decode response from";
                         net.UDPAddr_String (Address obj); err; newline;
                         string_of_list_byte (Raw obj)]
       | None =>
           EvLogPrintf "invalid NodeID '%s' from %s"
             [searchNodeID (fst (parse obj));
              net.UDPAddr_String (Address obj)]
       end
    /\ nodes (coll s') = nodes (coll s)
    /\ buf (queue (coll s')) = rest
    /\ goroutines s' = goroutines s).
  { unfold parser_step, chan_recv. rewrite Hq.
    unfold bind, parser_body.
    destruct (parse obj) as [d [err |]] eqn:Ep; cbn [fst snd] in *.
    - unfold log_Println, emit, ret. cbn.
      do 2 eexists. split; [reflexivity |]. cbn. repeat split.
    - destruct Hbad as [Hbad | Hbad]; [congruence |].
      rewrite (saveResponse_invalid _ _ _ Hbad). unfold ret. cbn.
      do 2 eexists. split; [reflexivity |]. cbn. repeat split. }
  destruct Hstep as (line & s' & Hs & Htr & Hline & Hn & Hb & Hg).
  exists line, s'. cbn [task_step]. repeat split; auto.
  - rewrite Hline. destruct (snd (parse obj)); reflexivity.
  - rewrite Hline. destruct (snd (parse obj)); reflexivity.
  - intros cs. unfold parser. cbn [run task_step]. unfold bind at 1.
    rewrite Hs. reflexivity.
Qed.

(** C3. For a payload whose NodeID is 12 bytes long, [saveResponse] calls
    [Update] once, with that NodeID and the payload, and after it calls the
    sink's [Add] with the NodeID and the merged node exactly when a sink is
    configured and the merged node has statistics; it makes no other call
    and keeps the registry that [Update] returns. *)
Theorem C3_valid_id_dispatch (addr : net.UDPAddr) (res : ResponseData)
  (s : State) :
  String.length (searchNodeID res) = 12 ->
  let i := searchNodeID res in
  let node := fst (models.Update (nodes (coll s)) i res) in
  exists s' adds,
    saveResponse addr res s = (Ok tt, s')
    /\ trace s' = trace s ++ EvUpdate i res :: adds
    /\ nodes (coll s') = snd (models.Update (nodes (coll s)) i res)
    /\ List.length (filter is_Update (EvUpdate i res :: adds)) = 1
    /\ (db (coll s) <> None /\ models.Node_Statistics node <> None ->
        adds = [EvAdd i node])
    /\ (~ (db (coll s) <> None /\ models.Node_Statistics node <> None) ->
        adds = []).
Proof.
  intros Hlen i node.
  rewrite (saveResponse_valid addr res s Hlen).
  do 2 eexists. split; [reflexivity |]. cbn.
  fold i. fold node.
  split; [reflexivity |]. split; [reflexivity |].
  destruct (db (coll s)) as [d |];
    [destruct (models.Node_Statistics node) as [st |] |]; cbn.
  - repeat split; auto. intros H. exfalso. apply H. split; discriminate.
  - repeat split; auto. intros [_ H]. congruence.
  - repeat split; auto. intros [H _]. congruence.
Qed.

End Saving.

(** ** How a step changes the state *)

Ltac go_unfold :=
  unfold task_step, receiver_read_step, receiver_send_step, parser_step,
    parser_body, saveResponse, sender_select_step,
    globalStatsWorker_select_step, saveGlobalStats, sendOnce, SendPacket,
    Start, Close, close_stop, close_queue, connection_Close, db_AddPoint,
    db_AddCounterMap, db_Add, db_call, nodes_Update, WriteToUDP, ReadFromUDP,
    time_NewTicker, time_Now, ticker_Stop, log_Println, log_Printf,
    log_Panic, bind, ret, panic, get, emit, go, chan_send, chan_recv,
    chan_close, stop_ready in *.

Ltac go_break :=
  repeat match goal with
    | H : (_, _) = (_, _) |- _ => inversion H; subst; clear H
    | H : context [match ?x with _ => _ end] |- _ => destruct x eqn:?
    | H : Some _ = Some _ |- _ => inversion H; subst; clear H
    | H : Sent _ = Sent _ |- _ => inversion H; subst; clear H
    | H : Received _ _ = Received _ _ |- _ => inversion H; subst; clear H
    end.

Ltac go_crush :=
  go_unfold; go_break; try discriminate;
  cbn -[Nat.ltb Z.leb Z.eqb String.length] in *.

Section Frames.
Context {DS : data.Structs} {RG : @models.Registry DS} {SK : database.Sink}.
Context {NS : net.Stack} {RS : @Respond DS}.

Lemma count_replace_nth (f : Task -> bool) (t t' : Task) :
  f t' = f t ->
  forall l i, nth_error l i = Some t ->
    count f (replace_nth i t' l) = count f l.
Proof.
  intros Hf. unfold count.
  induction l as [| x l IH]; intros [| i] Hn; cbn in *; try discriminate.
  - inversion Hn; subst. rewrite Hf. destruct (f t); reflexivity.
  - specialize (IH i Hn). destruct (f x); cbn; congruence.
Qed.

Lemma count_remove_nth (f : Task -> bool) :
  forall l i, count f (remove_nth i l) <= count f l.
Proof.
  unfold count.
  induction l as [| x l IH]; intros [| i]; cbn; try lia.
  - destruct (f x); cbn; lia.
  - specialize (IH i). destruct (f x); cbn; lia.
Qed.

Lemma count_app (f : Task -> bool) (l k : list Task) :
  count f (l ++ k) = count f l + count f k.
Proof. unfold count. rewrite filter_app, length_app. reflexivity. Qed.

(** A goroutine stays in the function it runs. *)
Lemma task_step_kind (t t' : Task) (c : SelectCase) (s s' : State) :
  task_step t c s = (Ok (Goto t'), s') ->
  is_sender t' = is_sender t /\
  is_globalStatsWorker t' = is_globalStatsWorker t.
Proof.
  intros H. destruct t; go_crush; try discriminate; split; reflexivity.
Qed.

(** A goroutine spawns no goroutine. *)
Lemma task_step_goroutines (t : Task) (c : SelectCase) (s s' : State)
  (r : result Next) :
  task_step t c s = (r, s') -> goroutines s' = goroutines s.
Proof.
  intros H. destruct t; go_crush; reflexivity.
Qed.

Lemma task_step_interval (t : Task) (c : SelectCase) (s s' : State)
  (r : result Next) :
  task_step t c s = (r, s') -> interval (coll s') = interval (coll s).
Proof.
  intros H. destruct t; go_crush; reflexivity.
Qed.

Lemma settle_count (f : Task -> bool) (i : nat) (t : Task) (n : Next)
  (s : State) :
  nth_error (goroutines s) i = Some t ->
  (forall t', n = Goto t' -> f t' = f t) ->
  count f (goroutines (settle i n s)) <= count f (goroutines s).
Proof.
  intros Hn Hk. destruct n as [t' | |]; cbn [settle set_goroutines goroutines].
  - rewrite (count_replace_nth f t t' (Hk t' eq_refl) _ _ Hn). lia.
  - lia.
  - apply count_remove_nth.
Qed.

Lemma step_db (s s' : State) : step s s' -> db (coll s') = db (coll s).
Proof.
  intros H; inversion H; subst; clear H; try reflexivity;
    try (destruct t); go_crush; try congruence.
Qed.

Lemma step_cap (s s' : State) :
  step s s' -> cap (queue (coll s')) = cap (queue (coll s)).
Proof.
  intros H; inversion H; subst; clear H; try reflexivity;
    try (destruct t); go_crush; try congruence.
Qed.

Lemma step_buf_bound (s s' : State) :
  step s s' ->
  List.length (buf (queue (coll s))) <= cap (queue (coll s)) ->
  List.length (buf (queue (coll s'))) <= cap (queue (coll s')).
Proof.
  intros H; inversion H; subst; clear H; try (intros; assumption);
    try (destruct t); go_crush; intros Hle; try assumption;
    repeat match goal with
      | E : buf _ = _ |- _ => rewrite E in *; cbn in *
      | E : Nat.ltb _ _ = true |- _ => apply Nat.ltb_lt in E
      end;
    rewrite ?length_app; cbn; try lia.
Qed.

(** The interval is set once, by the first [Start] that succeeds, and the
    goroutine of the sender is spawned then and only then. *)
Lemma step_senders (s s' : State) :
  step s s' ->
  (interval (coll s') = interval (coll s) /\
   count is_sender (goroutines s') <= count is_sender (goroutines s))
  \/
  (interval (coll s) = 0%Z /\ (0 < interval (coll s'))%Z /\
   count is_sender (goroutines s') = count is_sender (goroutines s) + 1).
Proof.
  intros H; inversion H; subst; clear H.
  - left. split.
    + destruct n; cbn; eapply task_step_interval; eassumption.
    + pose proof (task_step_goroutines _ _ _ _ _ H1) as Hg.
      rewrite <- Hg in H0.
      etransitivity; [eapply settle_count; [eassumption |] | rewrite Hg; lia].
      intros t' ->. eapply task_step_kind; eassumption.
  - left. split.
    + cbn. eapply task_step_interval; eassumption.
    + cbn. unfold count. cbn. lia.
  - unfold Start, bind, get, panic, go in H0.
    destruct (Z.eqb_spec (interval (coll s)) 0) as [E0 | E0]; cbn in H0.
    + destruct (Z.leb_spec d 0) as [Ed | Ed].
      * inversion H0; subst. left; split; [reflexivity | lia].
      * inversion H0; subst. right. cbn. rewrite count_app.
        repeat split; try assumption; lia.
    + inversion H0; subst. left; split; [reflexivity | lia].
  - left. go_crush; split; try reflexivity; lia.
  - left. go_crush; split; try reflexivity; lia.
  - left. go_crush; split; try reflexivity; lia.
  - left. go_crush; split; try reflexivity; lia.
  - left. split; [reflexivity | cbn; lia].
Qed.

(** No step makes a goroutine of the global statistics worker. *)
Lemma step_workers (s s' : State) :
  step s s' ->
  count is_globalStatsWorker (goroutines s') <=
  count is_globalStatsWorker (goroutines s).
Proof.
  intros H; inversion H; subst; clear H.
  - pose proof (task_step_goroutines _ _ _ _ _ H1) as Hg.
    rewrite <- Hg in H0.
    etransitivity; [eapply settle_count; [eassumption |] | rewrite Hg; lia].
    intros t' ->. eapply task_step_kind; eassumption.
  - cbn. unfold count. cbn. lia.
  - go_crush; unfold count; rewrite ?filter_app, ?length_app; cbn; lia.
  - go_crush; lia.
  - go_crush; lia.
  - go_crush; lia.
  - go_crush; lia.
  - cbn; lia.
Qed.

End Frames.

Section Lifecycle.
Context {DS : data.Structs} {RG : @models.Registry DS} {SK : database.Sink}.
Context {NS : net.Stack} {RS : @Respond DS}.

(** The state that [NewCollector] returns. *)
Lemma NewCollector_Ok (d : option database.DB) (n : models.Nodes)
  (iface : string) (w : World) (s0 : State) :
  NewCollector d n iface w = Ok s0 ->
  listen_err w = None /\
  coll s0 =
    {| connection := {| conn_closed := false;
                        readBuffer := maxDataGramSize |};
       queue := make_chan Response 400;
       multicastAddr :=
         net.JoinHostPort (multiCastGroup ++ "%" ++ iface) port;
       db := d; nodes := n; interval := 0%Z;
       stop := make_chan unit 0 |} /\
  trace s0 = [] /\
  goroutines s0 =
    receiver_read :: parser_range ::
    match d with Some _ => [globalStatsWorker_entry] | None => [] end /\
  world s0 = w.
Proof.
  unfold NewCollector.
  destruct (net.ResolveUDPAddr "udp" "[::]:0"); [| discriminate].
  destruct (listen_err w); [discriminate |].
  intros H. inversion H; subst; clear H.
  destruct d; cbn; repeat split; reflexivity.
Qed.

Lemma steps_trans (s s' s'' : State) :
  steps s s' -> steps s' s'' -> steps s s''.
Proof.
  intros H1 H2. induction H2; [assumption |].
  eapply steps_step; [apply IHsteps; assumption | eassumption].
Qed.

(** Once set, the interval stays set. *)
Lemma steps_interval_set (s s' : State) :
  steps s s' -> interval (coll s) <> 0%Z -> interval (coll s') <> 0%Z.
Proof.
  induction 1 as [| s s' s'' _ IH Hstep]; intros Hi; [assumption |].
  specialize (IH Hi).
  destruct (step_senders _ _ Hstep) as [[E _] | [E _]]; congruence.
Qed.

Lemma steps_senders (s s' : State) :
  steps s s' ->
  (0 <= interval (coll s))%Z ->
  (interval (coll s) = 0%Z -> count is_sender (goroutines s) = 0) ->
  count is_sender (goroutines s) <= 1 ->
  (0 <= interval (coll s'))%Z /\
  (interval (coll s') = 0%Z -> count is_sender (goroutines s') = 0) /\
  count is_sender (goroutines s') <= 1.
Proof.
  induction 1 as [| s s' s'' _ IH Hstep]; intros H0 Hz H1; [auto |].
  destruct (IH H0 Hz H1) as (I0 & Iz & I1).
  destruct (step_senders _ _ Hstep) as [[E Hc] | (E & Hp & Hc)].
  - rewrite E. repeat split; try lia; intros Ez; specialize (Iz Ez); lia.
  - specialize (Iz E). repeat split; lia.
Qed.

(** C4. [Start] with an interval that is not positive panics and leaves the
    state as it was: no goroutine is spawned and nothing is sent. After a
    [Start] that succeeded, every later [Start], whatever happened in
    between, panics with "already started" and leaves the state as it was;
    a collector never has more than one goroutine of the periodic sender. *)
Theorem C4_start_fails_fast :
  (forall (s : State) (d : Duration),
      (d <= 0)%Z -> exists v, Start d s = (Panic v, s))
  /\ (forall (s s' : State) (d : Duration),
      Start d s = (Ok tt, s') ->
      forall s'', steps s' s'' ->
      forall d', Start d' s'' = (Panic "already started", s''))
  /\ (forall s : State,
      reachable s -> count is_sender (goroutines s) <= 1).
Proof.
  split; [| split].
  - intros s d Hd. unfold Start, bind, get, panic.
    destruct (interval (coll s) =? 0)%Z; cbn.
    + destruct (Z.leb_spec d 0); [| lia]. eexists; reflexivity.
    + eexists; reflexivity.
  - intros s s' d HS s'' Hsteps d'.
    assert (Hset : interval (coll s') <> 0%Z).
    { unfold Start, bind, get, panic, go in HS.
      destruct (interval (coll s) =? 0)%Z; cbn in HS; [| discriminate].
      destruct (Z.leb_spec d 0); [discriminate |].
      inversion HS; subst; cbn. lia. }
    pose proof (steps_interval_set _ _ Hsteps Hset) as Hset'.
    unfold Start, bind, get, panic.
    destruct (Z.eqb_spec (interval (coll s'')) 0); [contradiction |].
    reflexivity.
  - intros s (d & n & iface & w & s0 & HN & Hsteps).
    destruct (NewCollector_Ok _ _ _ _ _ HN) as (_ & Hc & _ & Hg & _).
    apply (steps_senders _ _ Hsteps).
    + rewrite Hc. cbn. lia.
    + intros _. rewrite Hg. destruct d; reflexivity.
    + rewrite Hg. unfold count. destruct d; cbn; lia.
Qed.

End Lifecycle.

Section Traces.
Context {DS : data.Structs} {RG : @models.Registry DS} {SK : database.Sink}.
Context {NS : net.Stack} {RS : @Respond DS}.

Lemma quiet_events_nil (d : option database.DB) : quiet_events d [].
Proof. split; [intros p [] | reflexivity]. Qed.

Lemma quiet_events_app (d : option database.DB) (l k : list Event) :
  quiet_events d l -> quiet_events d k -> quiet_events d (l ++ k).
Proof.
  intros [Hl1 Hl2] [Hk1 Hk2]. split.
  - intros p. unfold writes. rewrite flat_map_app, in_app_iff.
    intros [H | H]; auto.
  - intros Hd. rewrite filter_app, Hl2, Hk2 by assumption. reflexivity.
Qed.

Ltac trace_new :=
  first
    [ exists []; split; [symmetry; apply app_nil_r | apply quiet_events_nil]
    | rewrite <- ?app_assoc; eexists; split; [reflexivity |];
      split; cbn;
      [ intros p Hp;
        repeat match goal with
          | H : _ \/ _ |- _ => destruct H
          | H : False |- _ => destruct H
          end; subst; try reflexivity
      | try congruence; try reflexivity ] ].

Lemma step_trace (s s' : State) :
  step s s' ->
  exists new, trace s' = trace s ++ new /\ quiet_events (db (coll s)) new.
Proof.
  intros H; inversion H; subst; clear H;
    try (destruct t); go_crush; trace_new.
Qed.

Lemma steps_trace (s s' : State) :
  steps s s' ->
  exists new, trace s' = trace s ++ new /\ quiet_events (db (coll s)) new.
Proof.
  induction 1 as [| s s' s'' Hs IH Hstep].
  - exists []. split; [symmetry; apply app_nil_r | apply quiet_events_nil].
  - destruct IH as (n1 & E1 & Q1).
    destruct (step_trace _ _ Hstep) as (n2 & E2 & Q2).
    exists (n1 ++ n2). split.
    + rewrite E2, E1, app_assoc. reflexivity.
    + apply quiet_events_app; [assumption |].
      assert (Hdb : db (coll s') = db (coll s)).
      { clear - Hs. induction Hs; [reflexivity |].
        rewrite (step_db _ _ H). assumption. }
      rewrite <- Hdb. assumption.
Qed.

Lemma steps_workers (s s' : State) :
  steps s s' ->
  count is_globalStatsWorker (goroutines s') <=
  count is_globalStatsWorker (goroutines s).
Proof.
  induction 1 as [| s s' s'' _ IH Hstep]; [lia |].
  pose proof (step_workers _ _ Hstep). lia.
Qed.

Lemma steps_db (s s' : State) : steps s s' -> db (coll s') = db (coll s).
Proof.
  induction 1 as [| s s' s'' _ IH Hstep]; [reflexivity |].
  rewrite (step_db _ _ Hstep). assumption.
Qed.

Lemma count_nth_pos (f : Task -> bool) (t : Task) :
  f t = true ->
  forall l i, nth_error l i = Some t -> 0 < count f l.
Proof.
  intros Hf. unfold count.
  induction l as [| x l IH]; intros [| i] Hn; cbn in *; try discriminate.
  - inversion Hn; subst. rewrite Hf. cbn. lia.
  - specialize (IH i Hn). destruct (f x); cbn; lia.
Qed.

(** A goroutine of the global statistics worker exists only in a collector
    that has a sink. *)
Lemma reachable_worker_db (s : State) :
  reachable s ->
  forall i t, nth_error (goroutines s) i = Some t ->
    is_globalStatsWorker t = true ->
    db (coll s) <> None.
Proof.
  intros (d & n & iface & w & s0 & HN & Hsteps) i t Hn Ht.
  destruct (NewCollector_Ok _ _ _ _ _ HN) as (_ & Hc & _ & Hg & _).
  rewrite (steps_db _ _ Hsteps), Hc. cbn.
  pose proof (count_nth_pos _ _ Ht _ _ Hn) as Hpos.
  pose proof (steps_workers _ _ Hsteps) as Hle.
  rewrite Hg in Hle. destruct d; [discriminate |].
  unfold count in *. cbn in Hle. lia.
Qed.

(** What a tick of the global statistics worker does with a sink. *)
Lemma saveGlobalStats_Ok (s : State) (d : database.DB) :
  db (coll s) = Some d ->
  saveGlobalStats s =
  (Ok tt,
   let stats := models.NewGlobalStats (nodes (coll s)) in
   {| coll := coll s;
      trace := trace s ++
        [ EvAddPoint database.MeasurementGlobal None (models.Fields stats)
            (now (world s));
          EvAddCounterMap database.MeasurementFirmware
            (models.Firmwares stats);
          EvAddCounterMap database.MeasurementModel (models.Models stats) ];
      goroutines := goroutines s; world := world s |}).
Proof.
  intros Hd.
  unfold saveGlobalStats, bind, get, time_Now, db_AddPoint, db_AddCounterMap,
    db_call, bind, get, emit.
  cbn. rewrite Hd. cbn. rewrite Hd. cbn. rewrite Hd. cbn.
  rewrite <- !app_assoc. reflexivity.
Qed.

End Traces.

Section Sending.
Context {DS : data.Structs} {RG : @models.Registry DS} {SK : database.Sink}.
Context {NS : net.Stack} {RS : @Respond DS}.

Lemma SendPacket_unresolved (address : string) (e : Error) (s : State) :
  net.ResolveUDPAddr "udp" address = inr e ->
  SendPacket address s =
  (Panic e, {| coll := coll s; trace := trace s ++ [EvLogPanic e];
               goroutines := goroutines s; world := world s |}).
Proof.
  intros Hr. unfold SendPacket. rewrite Hr. reflexivity.
Qed.

Lemma SendPacket_resolved (address : string) (addr : net.UDPAddr)
  (s : State) :
  net.ResolveUDPAddr "udp" address = inl addr ->
  exists s',
    SendPacket address s = (Ok tt, s')
    /\ trace s' = trace s ++
         EvWriteToUDP request addr (write_outcome s) ::
         match write_outcome s with
         | Some e => [EvLogPrintln ["WriteToUDP failed:"; e]]
         | None => []
         end
    /\ coll s' = coll s
    /\ goroutines s' = goroutines s.
Proof.
  intros Hr. unfold SendPacket, write_outcome. rewrite Hr.
  unfold bind, WriteToUDP, log_Println, emit, ret.
  destruct (conn_closed (connection (coll s))); cbn.
  - eexists. split; [reflexivity |]. cbn. rewrite <- app_assoc.
    repeat split.
  - destruct (hd None (write_errs (world s))); cbn;
      eexists; (split; [reflexivity |]); cbn; rewrite <- ?app_assoc;
      repeat split.
Qed.

(** C5 (amended). The constructor does not resolve the multicast address:
    it returns a collector exactly when the local address "[::]:0" resolves
    and the socket can be opened, whatever the multicast address is. An
    address that does not resolve is fatal when a request is sent to it:
    [SendPacket], and so [sendOnce] and the first step of the sender's
    goroutine, log the error and panic before any write to the socket. A
    write that fails is logged and is not fatal: [SendPacket] returns, and
    a tick of the sender's loop leaves its goroutine at the [select], ready
    for the next tick. *)
Theorem C5_resolution_fails_at_send :
  (forall d n iface w,
      (exists s0, NewCollector d n iface w = Ok s0) <->
      (exists a, net.ResolveUDPAddr "udp" "[::]:0" = inl a) /\
      listen_err w = None)
  /\ (forall s e,
      net.ResolveUDPAddr "udp" (multicastAddr (coll s)) = inr e ->
      forall c, exists s',
        sendOnce s = (Panic e, s') /\
        task_step Start_func c s = (Panic e, s') /\
        trace s' = trace s ++ [EvLogPanic e] /\
        writes (trace s') = writes (trace s))
  /\ (forall s addr e,
      net.ResolveUDPAddr "udp" (multicastAddr (coll s)) = inl addr ->
      write_outcome s = Some e ->
      exists s',
        sendOnce s = (Ok tt, s') /\
        task_step sender_select CaseTick s = (Ok (Goto sender_select), s') /\
        trace s' = trace s ++
          [EvWriteToUDP request addr (Some e);
           EvLogPrintln ["WriteToUDP failed:"; e]] /\
        multicastAddr (coll s') = multicastAddr (coll s)).
Proof.
  split; [| split].
  - intros d n iface w. unfold NewCollector. split.
    + intros [s0 H].
      destruct (net.ResolveUDPAddr "udp" "[::]:0"); [| discriminate].
      destruct (listen_err w); [discriminate |].
      split; [eexists |]; reflexivity.
    + intros [[a ->] ->]. eexists; reflexivity.
  - intros s e Hr c.
    eexists. unfold task_step, sendOnce, bind at 1 2 3, get.
    rewrite (SendPacket_unresolved _ _ _ Hr).
    repeat split. cbn. unfold writes. rewrite flat_map_app. cbn.
    apply app_nil_r.
  - intros s addr e Hr Hw.
    destruct (SendPacket_resolved _ _ s Hr) as (s' & HS & Htr & Hc & _).
    exists s'. unfold task_step, sender_select_step, sendOnce, bind, get, ret.
    rewrite HS. rewrite Hw in Htr. rewrite Hc. repeat split. assumption.
Qed.

(** C6 (amended). A call of [SendPacket] with an address that resolves
    makes exactly one write to the socket, of the literal request
    "GET nodeinfo statistics neighbours" to that address; one datagram
    leaves the socket if the write succeeds and none if it fails. With an
    address that does not resolve the call panics and nothing is written.
    Every write to the socket in every run of a collector carries that same
    request. *)
Theorem C6_one_request_per_resolved_send :
  request = list_byte_of_string "GET nodeinfo statistics neighbours"
  /\ (forall address s,
      match net.ResolveUDPAddr "udp" address with
      | inl addr =>
          exists s',
            SendPacket address s = (Ok tt, s') /\
            writes (trace s') = writes (trace s) ++ [(request, addr)] /\
            datagrams (trace s') = datagrams (trace s) ++
              match write_outcome s with
              | None => [(request, addr)]
              | Some _ => []
              end
      | inr e =>
          exists s',
            SendPacket address s = (Panic e, s') /\
            writes (trace s') = writes (trace s) /\
            datagrams (trace s') = datagrams (trace s)
      end)
  /\ (forall s, reachable s ->
      forall b a, In (b, a) (writes (trace s)) -> b = request).
Proof.
  split; [reflexivity | split].
  - intros address s.
    destruct (net.ResolveUDPAddr "udp" address) as [addr | e] eqn:Hr.
    + destruct (SendPacket_resolved _ _ s Hr) as (s' & HS & Htr & _).
      exists s'. split; [assumption |]. rewrite Htr.
      unfold writes, datagrams. rewrite !flat_map_app.
      destruct (write_outcome s); cbn; split; reflexivity.
    + eexists. rewrite (SendPacket_unresolved _ _ _ Hr).
      split; [reflexivity |]. cbn. unfold writes, datagrams.
      rewrite !flat_map_app. cbn. rewrite !app_nil_r. split; reflexivity.
  - intros s (d & n & iface & w & s0 & HN & Hsteps) b a Hin.
    destruct (NewCollector_Ok _ _ _ _ _ HN) as (_ & _ & Ht & _).
    destruct (steps_trace _ _ Hsteps) as (new & E & [Hw _]).
    rewrite E, Ht in Hin. cbn in Hin.
    apply (Hw (b, a) Hin).
Qed.

End Sending.

Section GlobalStats.
Context {DS : data.Structs} {RG : @models.Registry DS} {SK : database.Sink}.
Context {NS : net.Stack} {RS : @Respond DS}.

(** C7. [NewCollector] spawns the goroutine of the global statistics worker
    exactly when it is given a sink, and no step spawns one later. The
    worker's ticker has the period [time.Minute], whatever the interval of
    the collector. A tick of a worker of a running collector returns
    normally and adds three writes to the trace and nothing else: the point
    of the global fields with the current time, the counter map of the
    firmwares and the counter map of the models, whatever these maps hold.
    A collector without a sink has no worker and never writes to a sink. *)
Theorem C7_global_stats_worker :
  (forall d n iface w s0,
      NewCollector d n iface w = Ok s0 ->
      count is_globalStatsWorker (goroutines s0) =
        match d with Some _ => 1 | None => 0 end)
  /\ (forall s s', step s s' ->
      count is_globalStatsWorker (goroutines s') <=
      count is_globalStatsWorker (goroutines s))
  /\ (forall s c,
      task_step globalStatsWorker_entry c s =
      (Ok (Goto globalStatsWorker_select),
       {| coll := coll s; trace := trace s ++ [EvNewTicker time.Minute];
          goroutines := goroutines s; world := world s |})
      /\ time.Minute = 60000000000%Z)
  /\ (forall s i,
      reachable s ->
      nth_error (goroutines s) i = Some globalStatsWorker_select ->
      let stats := models.NewGlobalStats (nodes (coll s)) in
      exists s',
        task_step globalStatsWorker_select CaseTick s =
          (Ok (Goto globalStatsWorker_select), s') /\
        trace s' = trace s ++
          [ EvAddPoint database.MeasurementGlobal None (models.Fields stats)
              (now (world s));
            EvAddCounterMap database.MeasurementFirmware
              (models.Firmwares stats);
            EvAddCounterMap database.MeasurementModel
              (models.Models stats) ])
  /\ (forall n iface w s0 s,
      NewCollector None n iface w = Ok s0 -> steps s0 s ->
      count is_globalStatsWorker (goroutines s) = 0 /\
      filter is_sink_write (trace s) = []).
Proof.
  split; [| split; [| split; [| split]]].
  - intros d n iface w s0 HN.
    destruct (NewCollector_Ok _ _ _ _ _ HN) as (_ & _ & _ & Hg & _).
    rewrite Hg. destruct d; reflexivity.
  - apply step_workers.
  - intros s c. split; reflexivity.
  - intros s i Hr Hn stats.
    destruct (db (coll s)) as [d |] eqn:Hd.
    + eexists. unfold task_step, globalStatsWorker_select_step, bind at 1.
      rewrite (saveGlobalStats_Ok _ _ Hd). unfold ret.
      split; reflexivity.
    + exfalso. apply (reachable_worker_db s Hr i _ Hn eq_refl). assumption.
  - intros n iface w s0 s HN Hsteps.
    destruct (NewCollector_Ok _ _ _ _ _ HN) as (_ & Hc & Ht & Hg & _).
    split.
    + pose proof (steps_workers _ _ Hsteps) as Hle.
      rewrite Hg in Hle. unfold count in *. cbn in Hle. lia.
    + destruct (steps_trace _ _ Hsteps) as (new & E & [_ Hq]).
      rewrite E, Ht. cbn. apply Hq. rewrite Hc. reflexivity.
Qed.

(** C9. In every state of a collector made by [NewCollector], a goroutine
    that runs the global statistics worker exists only if the sink is not
    nil, and then [saveGlobalStats], the only code that calls the sink
    unguarded and that only this goroutine runs, returns normally; on a nil
    sink the same call would fault at its first write. *)
Theorem C9_saveGlobalStats_sink_not_nil :
  (forall s i t,
      reachable s ->
      nth_error (goroutines s) i = Some t ->
      is_globalStatsWorker t = true ->
      db (coll s) <> None /\
      exists s', saveGlobalStats s = (Ok tt, s'))
  /\ (forall s,
      db (coll s) = None ->
      saveGlobalStats s =
      (Panic "invalid memory address or nil pointer dereference", s)).
Proof.
  split.
  - intros s i t Hr Hn Ht.
    pose proof (reachable_worker_db s Hr i t Hn Ht) as Hd.
    split; [assumption |].
    destruct (db (coll s)) as [d |] eqn:E; [| congruence].
    eexists. apply (saveGlobalStats_Ok _ _ E).
  - intros s Hd.
    unfold saveGlobalStats, bind, get, time_Now, db_AddPoint, db_call,
      bind, get, panic.
    cbn. rewrite Hd. reflexivity.
Qed.

End GlobalStats.

Section Queue.
Context {DS : data.Structs} {RG : @models.Registry DS} {SK : database.Sink}.
Context {NS : net.Stack} {RS : @Respond DS}.

Lemma steps_cap (s s' : State) :
  steps s s' -> cap (queue (coll s')) = cap (queue (coll s)).
Proof.
  induction 1 as [| s s' s'' _ IH Hstep]; [reflexivity |].
  rewrite (step_cap _ _ Hstep). assumption.
Qed.

Lemma steps_buf_bound (s s' : State) :
  steps s s' ->
  List.length (buf (queue (coll s))) <= cap (queue (coll s)) ->
  List.length (buf (queue (coll s'))) <= cap (queue (coll s')).
Proof.
  induction 1 as [| s s' s'' _ IH Hstep]; [auto |].
  intros H. apply (step_buf_bound _ _ Hstep). auto.
Qed.

(** C10. The response queue is made with room for 400 entries; no step of
    the collector changes that capacity; so in every state of a collector
    the capacity is 400, the queue holds at most 400 entries, and the
    receiver's push waits exactly when the queue is open and holds 400. *)
Theorem C10_queue_capacity_400 :
  (forall d n iface w s0,
      NewCollector d n iface w = Ok s0 ->
      queue (coll s0) = make_chan Response 400)
  /\ (forall s s', step s s' ->
      cap (queue (coll s')) = cap (queue (coll s)))
  /\ (forall s, reachable s ->
      cap (queue (coll s)) = 400 /\
      List.length (buf (queue (coll s))) <= 400 /\
      forall r c,
        task_step (receiver_send r) c s = (Ok Blocked, s) <->
        closed (queue (coll s)) = false /\
        List.length (buf (queue (coll s))) = 400).
Proof.
  split; [| split].
  - intros d n iface w s0 HN.
    destruct (NewCollector_Ok _ _ _ _ _ HN) as (_ & Hc & _).
    rewrite Hc. reflexivity.
  - apply step_cap.
  - intros s (d & n & iface & w & s0 & HN & Hsteps).
    destruct (NewCollector_Ok _ _ _ _ _ HN) as (_ & Hc & _).
    assert (Hcap : cap (queue (coll s)) = 400).
    { rewrite (steps_cap _ _ Hsteps), Hc. reflexivity. }
    assert (Hlen : List.length (buf (queue (coll s))) <= 400).
    { rewrite <- Hcap. apply (steps_buf_bound _ _ Hsteps).
      rewrite Hc. cbn. lia. }
    split; [assumption | split; [assumption |]].
    intros r c. unfold task_step, receiver_send_step, chan_send.
    rewrite Hcap.
    destruct (closed (queue (coll s))).
    + split; [discriminate | intros [H _]; discriminate].
    + destruct (Nat.ltb_spec (List.length (buf (queue (coll s)))) 400).
      * split; [discriminate | intros [_ H']; lia].
      * split; [intros _; split; [reflexivity | lia] | reflexivity].
Qed.

End Queue.

Section Closing.
Context {DS : data.Structs} {RG : @models.Registry DS} {SK : database.Sink}.
Context {NS : net.Stack} {RS : @Respond DS}.

Lemma parser_body_Ok (obj : Response) (s : State) :
  exists s',
    parser_body obj s = (Ok tt, s') /\
    queue (coll s') = queue (coll s) /\
    filter is_Update (trace s') =
      filter is_Update (trace s) ++
      (if accepted obj
       then [EvUpdate (searchNodeID (fst (parse obj))) (fst (parse obj))]
       else []) /\
    List.length (filter is_saved (trace s')) =
      List.length (filter is_saved (trace s)) +
      (if decodes obj then 1 else 0).
Proof.
  unfold parser_body, accepted, decodes.
  destruct (parse obj) as [d [err |]]; cbn [fst snd].
  - eexists. split; [reflexivity |]. cbn. rewrite !filter_app. cbn.
    rewrite !app_nil_r. repeat split. lia.
  - destruct (Nat.eqb_spec (String.length (searchNodeID d)) 12) as [E | E].
    + rewrite (saveResponse_valid _ _ _ E).
      eexists. split; [reflexivity |]. cbn. rewrite !filter_app. cbn.
      split; [reflexivity |].
      destruct (db (coll s)); [destruct (models.Node_Statistics _) |];
        cbn; rewrite ?length_app; cbn; split; reflexivity.
    + rewrite (saveResponse_invalid _ _ _ E).
      eexists. split; [reflexivity |]. cbn. rewrite !filter_app. cbn.
      rewrite ?length_app, ?app_nil_r. cbn. repeat split.
Qed.

(** The parser empties a closed queue and returns. *)
Lemma parser_drains (c : SelectCase) :
  forall objs s,
    buf (queue (coll s)) = objs ->
    closed (queue (coll s)) = true ->
    parser (repeat c (S (List.length objs))) s =
      (Ok Returned, drain objs s) /\
    buf (queue (coll (drain objs s))) = [] /\
    filter is_Update (trace (drain objs s)) =
      filter is_Update (trace s) ++
      map (fun obj => EvUpdate (searchNodeID (fst (parse obj)))
                        (fst (parse obj)))
          (filter accepted objs) /\
    List.length (filter is_saved (trace (drain objs s))) =
      List.length (filter is_saved (trace s)) +
      List.length (filter decodes objs).
Proof.
  unfold parser.
  induction objs as [| obj rest IH]; intros s Hb Hc.
  - cbn. unfold bind, parser_step, chan_recv. rewrite Hb, Hc.
    split; [reflexivity |
      split; [first [assumption | reflexivity]
             | split; [cbn; symmetry; apply app_nil_r | cbn; lia]]].
  - set (s1 := set_queue {| buf := rest; cap := cap (queue (coll s));
                            closed := closed (queue (coll s)) |} s).
    destruct (parser_body_Ok obj s1) as (s2 & Hbody & Hq & Hup & Hsv).
    assert (Hb2 : buf (queue (coll s2)) = rest) by (rewrite Hq; reflexivity).
    assert (Hc2 : closed (queue (coll s2)) = true)
      by (rewrite Hq; cbn; assumption).
    destruct (IH s2 Hb2 Hc2) as (Hrun & Hempty & Hups & Hsvs).
    assert (Hd : drain (obj :: rest) s = drain rest s2).
    { cbn [drain]. fold s1. rewrite Hbody. reflexivity. }
    rewrite Hd. split; [| split; [| split]].
    + change (repeat c (S (List.length (obj :: rest))))
        with (c :: repeat c (S (List.length rest))).
      cbn [run task_step]. unfold bind at 1, parser_step, chan_recv.
      rewrite Hb. fold s1. unfold bind at 1. rewrite Hbody. unfold ret.
      exact Hrun.
    + exact Hempty.
    + rewrite Hups, Hup. cbn [filter]. rewrite <- app_assoc.
      destruct (accepted obj); reflexivity.
    + rewrite Hsvs, Hsv. cbn [filter trace s1 set_queue].
      destruct (decodes obj); cbn [List.length]; lia.
Qed.

(** A closed queue stays closed and only loses entries, from the front. *)
Lemma step_closed (s s' : State) :
  step s s' ->
  closed (queue (coll s)) = true ->
  closed (queue (coll s')) = true /\
  exists k, buf (queue (coll s)) = k ++ buf (queue (coll s')).
Proof.
  intros H; inversion H; subst; clear H;
    try (destruct t); go_crush; intros Hcl; try congruence;
    (split; [ assumption
            | first [ exists []; reflexivity
                    | exists []; cbn; congruence
                    | eexists [_]; reflexivity ] ]).
Qed.

Lemma steps_closed (s s' : State) :
  steps s s' ->
  closed (queue (coll s)) = true ->
  closed (queue (coll s')) = true /\
  exists k, buf (queue (coll s)) = k ++ buf (queue (coll s')).
Proof.
  induction 1 as [| s s' s'' _ IH Hstep]; intros Hcl.
  - split; [assumption | exists []; reflexivity].
  - destruct (IH Hcl) as (Hcl' & k1 & E1).
    destruct (step_closed _ _ Hstep Hcl') as (Hcl'' & k2 & E2).
    split; [assumption |]. exists (k1 ++ k2).
    rewrite E1, E2, app_assoc. reflexivity.
Qed.

End Closing.

Section Shutdown.
Context {DS : data.Structs} {RG : @models.Registry DS} {SK : database.Sink}.
Context {NS : net.Stack} {RS : @Respond DS}.

(** [Close], called on a collector whose stop channel and
    queue are open, returns after closing, in this order, the stop channel,
    the socket and the queue. After it the [select] of the sender and of the
    global statistics worker can take the stop case, on which they stop
    their ticker and return; the receiver's read fails, which it logs before
    it returns without a push; the queue is closed with its entries still in
    it, and in every later state it is closed, a push to it panics instead
    of adding an entry, and it holds a suffix of those entries. The parser
    takes every one of those entries, oldest first, decodes it and gives it
    to [saveResponse] if it decodes, and returns once the queue is empty:
    [saveResponse] is run once for each entry that decodes, and the registry
    is updated once for each entry that decodes to a payload with a NodeID
    of 12 bytes, in the order of the queue. *)
Theorem Close_order_and_drain (s : State) :
  closed (stop (coll s)) = false ->
  closed (queue (coll s)) = false ->
  let objs := buf (queue (coll s)) in
  exists s',
    Close s = (Ok tt, s')
    /\ trace s' = trace s ++ [EvClose ch_stop; EvConnClose; EvClose ch_queue]
    /\ stop_ready s' = true
    /\ task_step sender_select CaseStop s' =
         (Ok Returned,
          {| coll := coll s'; trace := trace s' ++ [EvTickerStop];
             goroutines := goroutines s'; world := world s' |})
    /\ task_step globalStatsWorker_select CaseStop s' =
         (Ok Returned,
          {| coll := coll s'; trace := trace s' ++ [EvTickerStop];
             goroutines := goroutines s'; world := world s' |})
    /\ conn_closed (connection (coll s')) = true
    /\ (forall c,
         task_step receiver_read c s' =
         (Ok Returned,
          {| coll := coll s';
             trace := trace s' ++
               [EvLogPrintln ["ReadFromUDP failed:";
                              "use of closed network connection"]];
             goroutines := goroutines s'; world := world s' |}))
    /\ closed (queue (coll s')) = true
    /\ buf (queue (coll s')) = objs
    /\ (forall s'', steps s' s'' ->
         closed (queue (coll s'')) = true /\
         (forall r, chan_send (queue (coll s'')) r = SendPanics) /\
         exists k, objs = k ++ buf (queue (coll s'')))
    /\ (forall c,
         parser (repeat c (S (List.length objs))) s' =
         (Ok Returned, drain objs s'))
    /\ buf (queue (coll (drain objs s'))) = []
    /\ filter is_Update (trace (drain objs s')) =
         filter is_Update (trace s') ++
         map (fun obj => EvUpdate (searchNodeID (fst (parse obj)))
                           (fst (parse obj)))
             (filter accepted objs)
    /\ List.length (filter is_saved (trace (drain objs s'))) =
         List.length (filter is_saved (trace s')) +
         List.length (filter decodes objs).
Proof.
  intros Hstop Hqueue objs.
  unfold Close, close_stop, close_queue, connection_Close, bind, chan_close,
    emit, set_stop, set_queue, set_connection.
  rewrite Hstop. cbn. rewrite Hqueue. cbn.
  eexists. split; [reflexivity |].
  match goal with |- context [trace ?st = _] => set (s' := st) end.
  assert (Hcl : closed (queue (coll s')) = true) by reflexivity.
  assert (Hb : buf (queue (coll s')) = objs) by reflexivity.
  split; [cbn; rewrite <- !app_assoc; reflexivity |].
  assert (Hready : stop_ready s' = true).
  { unfold stop_ready, chan_recv. cbn. destruct (buf (stop (coll s)));
      reflexivity. }
  split; [exact Hready |].
  split; [cbn [task_step sender_select_step]; rewrite Hready; reflexivity |].
  split; [cbn [task_step globalStatsWorker_select_step]; rewrite Hready;
          reflexivity |].
  split; [reflexivity |].
  split; [intros c; reflexivity |].
  split; [exact Hcl |]. split; [exact Hb |].
  split.
  - intros s'' Hsteps.
    destruct (steps_closed _ _ Hsteps Hcl) as (Hcl'' & k & Hk).
    split; [assumption |]. split.
    + intros r. unfold chan_send. rewrite Hcl''. reflexivity.
    + exists k. rewrite <- Hb. assumption.
  - assert (Hrun := fun c => parser_drains c objs s' Hb Hcl).
    split; [intros c; apply (Hrun c) |].
    destruct (Hrun CaseTick) as (_ & He & Hu & Hs).
    split; [assumption | split; assumption].
Qed.

(** A receiver that holds a datagram at its push when [Close] runs panics
    on the closed queue, and the panic of a goroutine ends them all, the
    parser included, with the entries of the queue still in it. *)
Remark push_after_Close_panics (s : State) (r : Response) (c : SelectCase)
  (i : nat) :
  closed (stop (coll s)) = false ->
  closed (queue (coll s)) = false ->
  nth_error (goroutines s) i = Some (receiver_send r) ->
  let s' := snd (Close s) in
  task_step (receiver_send r) c s' = (Panic "send on closed channel", s') /\
  step s' (set_goroutines [] s') /\
  buf (queue (coll (set_goroutines [] s'))) = buf (queue (coll s)).
Proof.
  intros Hstop Hqueue Hn s'.
  assert (Hs' : task_step (receiver_send r) c s' =
                (Panic "send on closed channel", s')).
  { subst s'.
    unfold Close, close_stop, close_queue, connection_Close, bind,
      chan_close, emit, set_stop, set_queue, set_connection.
    rewrite Hstop. cbn. rewrite Hqueue. reflexivity. }
  split; [exact Hs' |]. split.
  - eapply step_task_panic with (i := i) (t := receiver_send r) (c := c);
      [| exact Hs'].
    subst s'.
    unfold Close, close_stop, close_queue, connection_Close, bind,
      chan_close, emit, set_stop, set_queue, set_connection.
    rewrite Hstop. cbn. rewrite Hqueue. cbn. exact Hn.
  - subst s'.
    unfold Close, close_stop, close_queue, connection_Close, bind,
      chan_close, emit, set_stop, set_queue, set_connection.
    rewrite Hstop. cbn. rewrite Hqueue. reflexivity.
Qed.

End Shutdown.

(** * The code run on the small instance *)

Section Examples.
#[local] Existing Instance Demo.structs.
#[local] Existing Instance Demo.registry.
#[local] Existing Instance Demo.sink.
#[local] Existing Instance Demo.stack.
#[local] Existing Instance Demo.respond.

(** Statistics of a node from 203.0.113.5:1234, through the receiver and the
    parser: one [Update] and, the merged node having statistics and a sink
    being there, one [Add]. *)
Example statistics_end_to_end :
  let s0 := Demo.boot (Some tt) "eth0" Demo.busy in
  let s1 := snd (receiver [CaseTick; CaseTick] s0) in
  let s2 := snd (task_step parser_range CaseTick s1) in
  buf (queue (coll s1)) = [Demo.stats_entry] /\
  trace s2 =
    [ EvUpdate "aabbccddeeff"
        {| NodeInfo := None; Statistics := Some "aabbccddeeff";
           Neighbours := None |};
      EvAdd "aabbccddeeff"
        {| NodeInfo := None; Statistics := Some "aabbccddeeff";
           Neighbours := None |} ].
Proof. split; reflexivity. Qed.

(** Neighbours with the NodeID "short": no call, one warning. *)
Example short_id_end_to_end :
  let s0 := Demo.boot (Some tt) "eth0" Demo.quiet in
  saveResponse Demo.peer (fst (parse Demo.short)) s0 =
  (Ok tt,
   {| coll := coll s0;
      trace := [EvLogPrintf "invalid NodeID '%s' from %s"
                  ["short"; "203.0.113.5:1234"]];
      goroutines := goroutines s0; world := world s0 |}).
Proof. reflexivity. Qed.

(** A payload without sections has the empty NodeID and is dropped. *)
Example no_section_discarded :
  let s0 := Demo.boot (Some tt) "eth0" Demo.quiet in
  let res := {| NodeInfo := None; Statistics := None; Neighbours := None |} in
  candidate_NodeID res = None /\
  trace (snd (saveResponse Demo.peer res s0)) =
    [EvLogPrintf "invalid NodeID '%s' from %s" [""; "203.0.113.5:1234"]] /\
  nodes (coll (snd (saveResponse Demo.peer res s0))) = [].
Proof. repeat split. Qed.

(** [Start] spawns one goroutine; a second [Start] panics. *)
Example start_twice :
  let s0 := Demo.boot None "eth0" Demo.quiet in
  let s1 := snd (Start time.Minute s0) in
  goroutines s1 = [receiver_read; parser_range; Start_func] /\
  Start time.Second s1 = (Panic "already started", s1).
Proof. split; reflexivity. Qed.

Lemma boot_reachable (d : option database.DB) (w : World) :
  listen_err w = None -> reachable (Demo.boot d "eth0" w).
Proof.
  intros Hw. exists d, [], "eth0", w, (Demo.boot d "eth0" w).
  split; [| apply steps_refl].
  unfold Demo.boot, NewCollector. cbn. rewrite Hw. reflexivity.
Qed.

Lemma ticking_reachable : reachable Demo.ticking.
Proof.
  exists (Some tt), [], "eth0", Demo.quiet,
    (Demo.boot (Some tt) "eth0" Demo.quiet).
  split; [reflexivity |].
  eapply steps_step; [apply steps_refl |].
  unfold Demo.ticking.
  eapply step_task with (t := globalStatsWorker_entry) (c := CaseTick);
    reflexivity.
Qed.

Lemma requested_reachable : reachable Demo.requested.
Proof.
  exists None, [], "eth0", Demo.quiet, (Demo.boot None "eth0" Demo.quiet).
  split; [reflexivity |].
  eapply steps_step; [apply steps_refl |].
  unfold Demo.requested.
  eapply step_SendPacket with (address := "[fe80::1%eth0]:1001")
                              (r := Ok tt).
  reflexivity.
Qed.

(** C1 on a payload whose nodeinfo and statistics carry different NodeIDs:
    the registry is updated under the NodeID of the nodeinfo. *)
Lemma C1_witness :
  exists adds,
    trace (snd (saveResponse Demo.peer Demo.two_ids
                  (Demo.boot None "eth0" Demo.quiet))) =
      [] ++ EvUpdate "aabbccddeeff" Demo.two_ids :: adds /\
    (adds = [] \/
     adds = [EvAdd "aabbccddeeff"
               (fst (models.Update
                       (nodes (coll (Demo.boot None "eth0" Demo.quiet)))
                       "aabbccddeeff" Demo.two_ids))]).
Proof.
  destruct (C1_nodeid_priority Demo.two_ids)
    as (_ & _ & _ & _ & _ & _ & H).
  assert (Hneq : "aabbccddeeff" <> "112233445566") by discriminate.
  destruct (H "aabbccddeeff" "112233445566" eq_refl eq_refl Hneq Demo.peer
              (Demo.boot None "eth0" Demo.quiet)) as (Hv & _).
  apply Hv. reflexivity.
Defined.

(** C2 on the queued entry that does not decode. *)
Lemma C2_witness :
  exists line s',
    task_step parser_range CaseTick Demo.parsed_one =
      (Ok (Goto parser_range), s') /\
    trace s' = trace Demo.parsed_one ++ [line] /\
    line = EvLogPrintln ["unable to decode response from";
                         "203.0.113.5:1234"; "invalid character"; newline;
                         string_of_list_byte [xff; xfe]] /\
    nodes (coll s') = nodes (coll Demo.parsed_one) /\
    buf (queue (coll s')) = [Demo.short].
Proof.
  destruct (C2_per_message_errors_absorbed Demo.parsed_one Demo.garbage
              [Demo.short] CaseTick eq_refl)
    as (line & s' & H1 & H2 & H3 & _ & _ & H4 & H5 & _).
  - left. discriminate.
  - exists line, s'. repeat split; assumption.
Defined.

(** C3 on the statistics of the node "aabbccddeeff", with a sink. *)
Lemma C3_witness :
  exists s' adds,
    saveResponse Demo.peer (fst (parse Demo.stats_entry))
      (Demo.boot (Some tt) "eth0" Demo.quiet) = (Ok tt, s') /\
    trace s' =
      [] ++ EvUpdate "aabbccddeeff" (fst (parse Demo.stats_entry)) :: adds /\
    adds = [EvAdd "aabbccddeeff" (fst (parse Demo.stats_entry))].
Proof.
  assert (Hlen : String.length
                   (searchNodeID (fst (parse Demo.stats_entry))) = 12)
    by reflexivity.
  destruct (C3_valid_id_dispatch Demo.peer (fst (parse Demo.stats_entry))
              (Demo.boot (Some tt) "eth0" Demo.quiet) Hlen)
    as (s' & adds & H1 & H2 & _ & _ & H3 & _).
  exists s', adds. repeat split; try assumption.
  apply H3. split; discriminate.
Defined.

(** C4 on a fresh collector: an interval of 0, and a second [Start]. *)
Lemma C4_witness :
  let s0 := Demo.boot None "eth0" Demo.quiet in
  (exists v, Start 0%Z s0 = (Panic v, s0)) /\
  (forall d', Start d' (snd (Start time.Minute s0)) =
              (Panic "already started", snd (Start time.Minute s0))).
Proof.
  intros s0. destruct C4_start_fails_fast as (H1 & H2 & _). split.
  - apply (H1 s0 0%Z). apply Z.le_refl.
  - apply (H2 s0 (snd (Start time.Minute s0)) time.Minute eq_refl).
    apply steps_refl.
Defined.

(** C5, as it is claimed, fails: with the interface "eth0]" the multicast
    address does not resolve, and the constructor returns a collector all
    the same, having logged and sent nothing; the failure is fatal only when
    the first request is sent. *)
Lemma C5_counterexample :
  net.ResolveUDPAddr "udp"
    (net.JoinHostPort (multiCastGroup ++ "%" ++ "eth0]") port) =
    inr "address [ff02:0:0:0:0:0:2:1001%eth0]]:1001: missing port in address"
  /\ exists s0,
       NewCollector None [] "eth0]" Demo.quiet = Ok s0 /\
       multicastAddr (coll s0) = "[ff02:0:0:0:0:0:2:1001%eth0]]:1001" /\
       trace s0 = [] /\
       fst (task_step Start_func CaseTick (snd (Start time.Second s0))) =
         Panic "address [ff02:0:0:0:0:0:2:1001%eth0]]:1001: missing port in address".
Proof.
  split; [reflexivity |].
  eexists. split; [reflexivity |]. repeat split.
Qed.

(** C5 (amended) on the interface "eth0]", and on a write that fails. *)
Lemma C5_witness :
  (exists s',
     sendOnce (Demo.boot None "eth0]" Demo.quiet) =
       (Panic "address [ff02:0:0:0:0:0:2:1001%eth0]]:1001: missing port in address",
        s') /\
     writes (trace s') = []) /\
  (exists s',
     task_step sender_select CaseTick (Demo.boot None "eth0" Demo.busy) =
       (Ok (Goto sender_select), s') /\
     trace s' =
       [EvWriteToUDP request "[ff02:0:0:0:0:0:2:1001%eth0]:1001"
          (Some "network is unreachable");
        EvLogPrintln ["WriteToUDP failed:"; "network is unreachable"]]).
Proof.
  destruct C5_resolution_fails_at_send as (_ & H2 & H3). split.
  - destruct (H2 (Demo.boot None "eth0]" Demo.quiet) _ eq_refl CaseTick)
      as (s' & Hs & _ & _ & Hw).
    exists s'. split; assumption.
  - destruct (H3 (Demo.boot None "eth0" Demo.busy) _ _ eq_refl eq_refl)
      as (s' & _ & Ht & Htr & _).
    exists s'. split; assumption.
Defined.

(** C6, as it is claimed, fails: a call with the address "bogus", which does
    not resolve, panics and no datagram is emitted; and a call whose write
    fails emits none either. *)
Lemma C6_counterexample :
  (let r := SendPacket "bogus" (Demo.boot None "eth0" Demo.quiet) in
   fst r = Panic "address bogus: missing port in address" /\
   writes (trace (snd r)) = [] /\ datagrams (trace (snd r)) = [])
  /\
  (let r := SendPacket "[fe80::1%eth0]:1001"
              (Demo.boot None "eth0" Demo.busy) in
   fst r = Ok tt /\
   writes (trace (snd r)) = [(request, "[fe80::1%eth0]:1001")] /\
   datagrams (trace (snd r)) = []).
Proof. repeat split. Qed.

(** C6 (amended) on the trace of a collector after one request. *)
Lemma C6_witness :
  writes (trace Demo.requested) <> [] /\
  Forall (fun p => fst p = request) (writes (trace Demo.requested)).
Proof.
  destruct C6_one_request_per_resolved_send as (_ & _ & H).
  split; [discriminate |].
  apply Forall_forall. intros [b a] Hin.
  apply (H Demo.requested requested_reachable b a Hin).
Defined.

(** C7 on a tick of the worker of a collector with a sink. *)
Lemma C7_witness :
  exists s',
    task_step globalStatsWorker_select CaseTick Demo.ticking =
      (Ok (Goto globalStatsWorker_select), s') /\
    trace s' =
      trace Demo.ticking ++
      [ EvAddPoint "global" None 0 0%Z;
        EvAddCounterMap "firmware" [];
        EvAddCounterMap "model" [] ].
Proof.
  destruct C7_global_stats_worker as (_ & _ & _ & H & _).
  apply (H Demo.ticking 2 ticking_reachable eq_refl).
Defined.

(** Of three entries queued before [Close], the one that does not decode
    is taken by the parser, which logs it and goes on; it is never given to
    [saveResponse], and the parser returns with [saveResponse] run on two
    entries only. *)
Lemma undecodable_entry_is_not_saved :
  let s := Demo.loaded (Some tt) in
  let s' := snd (Close s) in
  let r := parser (repeat CaseTick 4) s' in
  buf (queue (coll s)) = [Demo.stats_entry; Demo.garbage; Demo.short]
  /\ fst (Close s) = Ok tt
  /\ fst r = Ok Returned
  /\ buf (queue (coll (snd r))) = []
  /\ trace (snd r) =
       [ EvClose ch_stop; EvConnClose; EvClose ch_queue;
         EvUpdate "aabbccddeeff" (fst (parse Demo.stats_entry));
         EvAdd "aabbccddeeff" (fst (parse Demo.stats_entry));
         EvLogPrintln ["unable to decode response from"; "203.0.113.5:1234";
                       "invalid character"; newline;
                       string_of_list_byte [xff; xfe]];
         EvLogPrintf "invalid NodeID '%s' from %s"
           ["short"; "203.0.113.5:1234"] ]
  /\ List.length (filter is_saved (trace (snd r))) = 2.
Proof. repeat split. Qed.

(** [Close] and the parser on the collector with three queued entries. *)
Lemma Close_order_and_drain_example :
  exists s',
    Close (Demo.loaded (Some tt)) = (Ok tt, s') /\
    trace s' = [EvClose ch_stop; EvConnClose; EvClose ch_queue] /\
    parser (repeat CaseTick 4) s' =
      (Ok Returned,
       drain [Demo.stats_entry; Demo.garbage; Demo.short] s') /\
    filter is_Update
      (trace (drain [Demo.stats_entry; Demo.garbage; Demo.short] s')) =
      [EvUpdate "aabbccddeeff" (fst (parse Demo.stats_entry))].
Proof.
  pose proof (Close_order_and_drain (Demo.loaded (Some tt))
                eq_refl eq_refl) as H.
  cbv zeta in H.
  change (buf (queue (coll (Demo.loaded (Some tt)))))
    with [Demo.stats_entry; Demo.garbage; Demo.short] in H.
  destruct H
    as (s' & H1 & H2 & _ & _ & _ & _ & _ & _ & _ & _ & H3 & _ & H4 & _).
  exists s'. split; [assumption |]. split; [assumption |].
  split; [apply (H3 CaseTick) |].
  rewrite H4, H2. reflexivity.
Defined.

(** C9 on the collector whose worker waits at its [select]. *)
Lemma C9_witness :
  db (coll Demo.ticking) <> None /\
  exists s', saveGlobalStats Demo.ticking = (Ok tt, s').
Proof.
  destruct C9_saveGlobalStats_sink_not_nil as (H & _).
  apply (H Demo.ticking 2 globalStatsWorker_select ticking_reachable
           eq_refl eq_refl).
Defined.

(** C10 on the same collector. *)
Lemma C10_witness :
  cap (queue (coll Demo.ticking)) = 400 /\
  List.length (buf (queue (coll Demo.ticking))) <= 400.
Proof.
  destruct C10_queue_capacity_400 as (_ & _ & H).
  destruct (H Demo.ticking ticking_reachable) as (Hc & Hl & _).
  split; assumption.
Defined.

End Examples.

(** * The receiver and the queue *)

Section Receiving.
Context {DS : data.Structs} {RG : @models.Registry DS} {SK : database.Sink}.
Context {NS : net.Stack} {RS : @Respond DS}.

Lemma repeat_twice (c : SelectCase) (n : nat) :
  repeat c (2 * S n) = c :: c :: repeat c (2 * n).
Proof. replace (2 * S n) with (S (S (2 * n))) by lia. reflexivity. Qed.

Lemma receiver_queues (c : SelectCase) :
  forall (ds : list (bytes * net.UDPAddr))
         (rest : list (bytes * net.UDPAddr + Error)) (s : State),
    conn_closed (connection (coll s)) = false ->
    closed (queue (coll s)) = false ->
    inbox (world s) = map inl ds ++ rest ->
    List.length (buf (queue (coll s))) + List.length ds <=
      cap (queue (coll s)) ->
    exists s',
      receiver (repeat c (2 * List.length ds)) s =
        (Ok (Goto receiver_read), s') /\
      buf (queue (coll s')) = buf (queue (coll s)) ++ map to_Response ds /\
      inbox (world s') = rest /\
      trace s' = trace s /\
      nodes (coll s') = nodes (coll s) /\
      goroutines s' = goroutines s /\
      connection (coll s') = connection (coll s) /\
      cap (queue (coll s')) = cap (queue (coll s)) /\
      closed (queue (coll s')) = false.
Proof.
  unfold receiver.
  induction ds as [| [d src] ds IH]; intros rest s Hconn Hcl Hin Hlen.
  - cbn in *. exists s. rewrite app_nil_r. repeat split; auto.
  - cbn [List.length]. rewrite repeat_twice.
    cbn [List.length map app] in Hin, Hlen.
    set (s1 := set_world (with_inbox (map inl ds ++ rest) (world s)) s).
    assert (H1 : task_step receiver_read c s =
                 (Ok (Goto (receiver_send (to_Response (d, src)))), s1)).
    { unfold task_step, receiver_read_step, bind, ReadFromUDP.
      rewrite Hconn, Hin. reflexivity. }
    set (q := {| buf := buf (queue (coll s)) ++ [to_Response (d, src)];
                 cap := cap (queue (coll s));
                 closed := closed (queue (coll s)) |}).
    assert (H2 : task_step (receiver_send (to_Response (d, src))) c s1 =
                 (Ok (Goto receiver_read), set_queue q s1)).
    { unfold task_step, receiver_send_step, chan_send. cbn -[Nat.ltb].
      rewrite Hcl.
      destruct (Nat.ltb_spec (List.length (buf (queue (coll s))))
                  (cap (queue (coll s))));
        [subst q; rewrite Hcl; reflexivity | lia]. }
    destruct (IH rest (set_queue q s1)) as (s' & Hrun & Hb & Hi & Ht & Hn &
                                            Hg & Hc & Hcap & Hcl').
    + exact Hconn.
    + cbn. exact Hcl.
    + reflexivity.
    + cbn. rewrite length_app. cbn. lia.
    + exists s'. split.
      * cbn [run]. unfold bind at 1. rewrite H1.
        unfold bind at 1. rewrite H2. exact Hrun.
      * rewrite Hb, Hi, Ht, Hn, Hg, Hc, Hcap. cbn.
        rewrite <- app_assoc. repeat split. exact Hcl'.
Qed.

(** X1. With the socket and the queue open and room in the queue, the
    receiver takes the waiting datagrams off the socket one after the other
    and queues, behind what is queued already and in the order of arrival,
    one entry for each: the bytes that fit a buffer of [maxDataGramSize]
    and the source address. It logs nothing and touches neither the
    registry nor the sink. *)
Theorem receiver_queues_in_order (c : SelectCase)
  (ds : list (bytes * net.UDPAddr))
  (rest : list (bytes * net.UDPAddr + Error)) (s : State) :
  conn_closed (connection (coll s)) = false ->
  closed (queue (coll s)) = false ->
  inbox (world s) = map inl ds ++ rest ->
  List.length (buf (queue (coll s))) + List.length ds <=
    cap (queue (coll s)) ->
  exists s',
    receiver (repeat c (2 * List.length ds)) s =
      (Ok (Goto receiver_read), s') /\
    buf (queue (coll s')) = buf (queue (coll s)) ++ map to_Response ds /\
    Forall (fun r => List.length (Raw r) <= maxDataGramSize)
      (map to_Response ds) /\
    inbox (world s') = rest /\
    trace s' = trace s /\
    nodes (coll s') = nodes (coll s).
Proof.
  intros Hconn Hcl Hin Hlen.
  destruct (receiver_queues c ds rest s Hconn Hcl Hin Hlen)
    as (s' & Hrun & Hb & Hi & Ht & Hn & _).
  exists s'. repeat split; auto.
  apply Forall_forall. intros r Hr. apply in_map_iff in Hr.
  destruct Hr as (p & <- & _). cbn. rewrite length_firstn. lia.
Qed.

(** X2. On a full, open queue the receiver takes one datagram off the
    socket and then waits at its push, however long it is run: the queue
    is as it was and the datagrams behind the first stay at the socket. *)
Theorem receiver_blocks_on_full_queue (s : State) (d : bytes)
  (src : net.UDPAddr) (rest : list (bytes * net.UDPAddr + Error))
  (c1 c2 : SelectCase) (cs : list SelectCase) :
  conn_closed (connection (coll s)) = false ->
  closed (queue (coll s)) = false ->
  cap (queue (coll s)) <= List.length (buf (queue (coll s))) ->
  inbox (world s) = inl (d, src) :: rest ->
  receiver (c1 :: c2 :: cs) s =
    (Ok Blocked, set_world (with_inbox rest (world s)) s).
Proof.
  intros Hconn Hcl Hfull Hin.
  unfold receiver. cbn [run].
  unfold bind at 1, task_step, receiver_read_step, bind at 1, ReadFromUDP.
  rewrite Hconn, Hin. cbn [ret].
  unfold bind at 1, receiver_send_step, chan_send. cbn -[Nat.ltb].
  rewrite Hcl.
  destruct (Nat.ltb_spec (List.length (buf (queue (coll s))))
              (cap (queue (coll s)))); [lia | reflexivity].
Qed.

Lemma task_step_kind_receiver (t t' : Task) (c : SelectCase)
  (s s' : State) :
  task_step t c s = (Ok (Goto t'), s') ->
  is_receiver t' = is_receiver t /\ is_parser t' = is_parser t.
Proof.
  intros H. destruct t; go_crush; try discriminate; split; reflexivity.
Qed.

Lemma step_receivers (s s' : State) :
  step s s' ->
  count is_receiver (goroutines s') <= count is_receiver (goroutines s).
Proof.
  intros H; inversion H; subst; clear H.
  - pose proof (task_step_goroutines _ _ _ _ _ H1) as Hg.
    rewrite <- Hg in H0.
    etransitivity; [eapply settle_count; [eassumption |] | rewrite Hg; lia].
    intros t' ->. eapply task_step_kind_receiver; eassumption.
  - cbn. unfold count. cbn. lia.
  - go_crush; unfold count; rewrite ?filter_app, ?length_app; cbn; lia.
  - go_crush; lia.
  - go_crush; lia.
  - go_crush; lia.
  - go_crush; lia.
  - cbn; lia.
Qed.

Lemma count_zero_nth (f : Task -> bool) (l : list Task) (i : nat)
  (t : Task) :
  count f l = 0 -> nth_error l i = Some t -> f t = false.
Proof.
  intros Hz Hn. destruct (f t) eqn:E; [| reflexivity].
  pose proof (count_nth_pos f t E l i Hn). lia.
Qed.

(** Without a receiver nothing is queued. *)
Lemma step_no_receiver (s s' : State) :
  step s s' ->
  count is_receiver (goroutines s) = 0 ->
  List.length (buf (queue (coll s'))) <= List.length (buf (queue (coll s))).
Proof.
  intros H Hz; inversion H; subst; clear H; try (cbn; lia).
  - pose proof (count_zero_nth _ _ _ _ Hz H0) as Hk.
    destruct t; try discriminate; go_crush;
      repeat match goal with
        | E : buf _ = _ |- _ => rewrite E in *; cbn in *
        end; lia.
  - pose proof (count_zero_nth _ _ _ _ Hz H0) as Hk.
    destruct t; try discriminate; go_crush; lia.
  - go_crush; lia.
  - go_crush; lia.
  - go_crush; lia.
  - go_crush; lia.
  - go_crush; lia.
Qed.

(** X3. A read that fails, as every read on a closed socket does, ends the
    receiver: it logs the error and returns without a push. No step of the
    collector starts a receiver, so a collector has at most one, and once
    it has returned no entry is ever queued again. *)
Theorem receiver_ends_for_good :
  (forall (s : State) (c : SelectCase),
      conn_closed (connection (coll s)) = true ->
      task_step receiver_read c s =
      (Ok Returned,
       {| coll := coll s;
          trace := trace s ++
            [EvLogPrintln ["ReadFromUDP failed:";
                           "use of closed network connection"]];
          goroutines := goroutines s; world := world s |}))
  /\ (forall (s : State) (c : SelectCase) (err : Error)
             (rest : list (bytes * net.UDPAddr + Error)),
      conn_closed (connection (coll s)) = false ->
      inbox (world s) = inr err :: rest ->
      exists s',
        task_step receiver_read c s = (Ok Returned, s') /\
        trace s' = trace s ++ [EvLogPrintln ["ReadFromUDP failed:"; err]] /\
        queue (coll s') = queue (coll s))
  /\ (forall s, reachable s -> count is_receiver (goroutines s) <= 1)
  /\ (forall s s',
      steps s s' ->
      count is_receiver (goroutines s) = 0 ->
      count is_receiver (goroutines s') = 0 /\
      List.length (buf (queue (coll s'))) <=
        List.length (buf (queue (coll s)))).
Proof.
  split; [| split; [| split]].
  - intros s c Hc. unfold task_step, receiver_read_step, bind, ReadFromUDP.
    rewrite Hc. reflexivity.
  - intros s c err rest Hc Hin.
    unfold task_step, receiver_read_step, bind, ReadFromUDP.
    rewrite Hc, Hin. eexists. split; [reflexivity |]. split; reflexivity.
  - intros s (d & n & iface & w & s0 & HN & Hsteps).
    destruct (NewCollector_Ok _ _ _ _ _ HN) as (_ & _ & _ & Hg & _).
    assert (H0 : count is_receiver (goroutines s0) <= 1).
    { rewrite Hg. unfold count. destruct d; cbn; lia. }
    clear HN Hg. induction Hsteps as [| s0 s1 s2 _ IH Hstep]; [assumption |].
    pose proof (step_receivers _ _ Hstep). specialize (IH H0). lia.
  - intros s s' Hsteps Hz.
    induction Hsteps as [| s s1 s2 _ IH Hstep]; [split; [assumption | lia] |].
    destruct (IH Hz) as (Hz1 & Hl1).
    pose proof (step_receivers _ _ Hstep).
    pose proof (step_no_receiver _ _ Hstep Hz1).
    split; lia.
Qed.

End Receiving.

(** * The sender *)

Section Requests.
Context {DS : data.Structs} {RG : @models.Registry DS} {SK : database.Sink}.
Context {NS : net.Stack} {RS : @Respond DS}.

Lemma run_cons_Goto (t t' : Task) (c : SelectCase) (cs : list SelectCase)
  (s s' : State) :
  task_step t c s = (Ok (Goto t'), s') ->
  run (c :: cs) t s = run cs t' s'.
Proof. intros H. cbn [run]. unfold bind. rewrite H. reflexivity. Qed.

Lemma sendOnce_resolved (s : State) (addr : net.UDPAddr) :
  net.ResolveUDPAddr "udp" (multicastAddr (coll s)) = inl addr ->
  exists s' tr,
    sendOnce s = (Ok tt, s') /\
    coll s' = coll s /\
    goroutines s' = goroutines s /\
    trace s' = trace s ++ tr /\
    writes tr = [(request, addr)] /\
    tickers tr = [] /\
    exists err tl, tr = EvWriteToUDP request addr err :: tl.
Proof.
  intros Hr.
  destruct (SendPacket_resolved _ _ s Hr) as (s' & HS & Htr & Hc & Hg).
  exists s'. eexists. unfold sendOnce, bind, get. rewrite HS.
  split; [reflexivity |]. split; [assumption |]. split; [assumption |].
  split; [exact Htr |].
  destruct (write_outcome s); cbn; repeat split; eauto.
Qed.

Lemma sender_ticks (addr : net.UDPAddr) :
  forall (n : nat) (s : State),
    net.ResolveUDPAddr "udp" (multicastAddr (coll s)) = inl addr ->
    exists s' tr,
      run (repeat CaseTick n) sender_select s =
        (Ok (Goto sender_select), s') /\
      coll s' = coll s /\
      goroutines s' = goroutines s /\
      trace s' = trace s ++ tr /\
      writes tr = repeat (request, addr) n /\
      tickers tr = [].
Proof.
  induction n as [| n IH]; intros s Hr.
  - exists s, []. cbn. rewrite app_nil_r. repeat split.
  - destruct (sendOnce_resolved s addr Hr)
      as (s1 & tr1 & H1 & Hc1 & Hg1 & Ht1 & Hw1 & Hk1 & _).
    assert (Hr1 : net.ResolveUDPAddr "udp" (multicastAddr (coll s1)) =
                  inl addr) by (rewrite Hc1; assumption).
    destruct (IH s1 Hr1) as (s2 & tr2 & H2 & Hc2 & Hg2 & Ht2 & Hw2 & Hk2).
    exists s2, (tr1 ++ tr2). split.
    + cbn [repeat]. rewrite <- H2. apply run_cons_Goto.
      cbn [task_step sender_select_step]. unfold bind. rewrite H1.
      reflexivity.
    + rewrite Hc2, Hg2, Ht2, Hc1, Hg1, Ht1, app_assoc.
      unfold writes, tickers in *. rewrite !flat_map_app.
      rewrite Hw1, Hw2, Hk1, Hk2. repeat split.
Qed.

(** X4. Run from its start with a multicast address that resolves and a
    positive interval, the goroutine of [Start] sends one request at once,
    before it makes its ticker, makes one ticker with the interval of the
    collector, and then sends one request on every tick: after [n] ticks
    the socket has been written [n + 1] times, each time with the request
    and to the multicast address of the collector, which it leaves as it
    was. *)
Theorem sender_requests_every_tick (s : State) (addr : net.UDPAddr)
  (n : nat) :
  net.ResolveUDPAddr "udp" (multicastAddr (coll s)) = inl addr ->
  (0 < interval (coll s))%Z ->
  exists s' tr,
    run (repeat CaseTick (2 + n)) Start_func s =
      (Ok (Goto sender_select), s') /\
    coll s' = coll s /\
    trace s' = trace s ++ tr /\
    writes tr = repeat (request, addr) (S n) /\
    tickers tr = [interval (coll s)] /\
    exists err tl, tr = EvWriteToUDP request addr err :: tl.
Proof.
  intros Hr Hpos.
  destruct (sendOnce_resolved s addr Hr)
    as (s1 & tr1 & H1 & Hc1 & Hg1 & Ht1 & Hw1 & Hk1 & err & tl & Htl).
  set (s2 := {| coll := coll s1;
                trace := trace s1 ++ [EvNewTicker (interval (coll s))];
                goroutines := goroutines s1; world := world s1 |}).
  assert (Hr2 : net.ResolveUDPAddr "udp" (multicastAddr (coll s2)) =
                inl addr) by (cbn; rewrite Hc1; assumption).
  destruct (sender_ticks addr n s2 Hr2)
    as (s3 & tr3 & H3 & Hc3 & Hg3 & Ht3 & Hw3 & Hk3).
  exists s3, (tr1 ++ [EvNewTicker (interval (coll s))] ++ tr3).
  split.
  - cbn [Nat.add repeat]. rewrite <- H3.
    rewrite (run_cons_Goto Start_func sender_entry CaseTick _ s s1).
    + apply run_cons_Goto. cbn [task_step].
      unfold bind, get, time_NewTicker. rewrite Hc1.
      destruct (Z.leb_spec (interval (coll s)) 0); [lia |].
      reflexivity.
    + cbn [task_step]. unfold bind. rewrite H1. reflexivity.
  - rewrite Hc3, Ht3. cbn [coll trace s2]. rewrite Ht1, Hc1.
    rewrite <- !app_assoc.
    unfold writes, tickers in *. rewrite !flat_map_app.
    rewrite Hw1, Hw3, Hk1, Hk3. cbn.
    repeat split. rewrite Htl. cbn. eauto.
Qed.

End Requests.

(** * What stays as it is *)

Section Invariants.
Context {DS : data.Structs} {RG : @models.Registry DS} {SK : database.Sink}.
Context {NS : net.Stack} {RS : @Respond DS}.

Lemma step_stop_closed (s s' : State) :
  step s s' ->
  closed (stop (coll s)) = true -> closed (stop (coll s')) = true.
Proof.
  intros H; inversion H; subst; clear H; try (intros; assumption);
    try (destruct t); go_crush; intros Hcl; congruence.
Qed.

Lemma steps_stop_closed (s s' : State) :
  steps s s' ->
  closed (stop (coll s)) = true -> closed (stop (coll s')) = true.
Proof.
  induction 1 as [| s s' s'' _ IH Hstep]; [auto |].
  intros H. apply (step_stop_closed _ _ Hstep). auto.
Qed.

(** X5. [Close] works once: after a [Close] that returned, every later
    [Close], whatever ran in between, panics at its first statement with
    "close of closed channel" and leaves the collector as it is. *)
Theorem Close_twice_panics (s s' s'' : State) :
  Close s = (Ok tt, s') ->
  steps s' s'' ->
  Close s'' = (Panic "close of closed channel", s'').
Proof.
  intros HC Hsteps.
  assert (Hcl : closed (stop (coll s')) = true).
  { unfold Close, bind, close_stop, chan_close in HC.
    destruct (closed (stop (coll s))) eqn:E; [discriminate |].
    unfold connection_Close, close_queue, chan_close in HC. cbn in HC.
    destruct (closed (queue (coll s))); [discriminate |].
    cbn in HC. inversion HC; subst. reflexivity. }
  pose proof (steps_stop_closed _ _ Hsteps Hcl) as Hcl'.
  unfold Close, bind, close_stop, chan_close. rewrite Hcl'. reflexivity.
Qed.



Lemma task_step_nodes (t : Task) (c : SelectCase) (s s' : State)
  (r : result Next) :
  is_parser t = false ->
  task_step t c s = (r, s') ->
  nodes (coll s') = nodes (coll s) /\
  filter is_Update (trace s') = filter is_Update (trace s).
Proof.
  intros Hp H. destruct t; try discriminate; go_crush;
    rewrite ?filter_app; cbn; rewrite ?app_nil_r; split; reflexivity.
Qed.

Lemma step_parsers (s s' : State) :
  step s s' ->
  count is_parser (goroutines s') <= count is_parser (goroutines s).
Proof.
  intros H; inversion H; subst; clear H.
  - pose proof (task_step_goroutines _ _ _ _ _ H1) as Hg.
    rewrite <- Hg in H0.
    etransitivity; [eapply settle_count; [eassumption |] | rewrite Hg; lia].
    intros t' ->. eapply task_step_kind_receiver; eassumption.
  - cbn. unfold count. cbn. lia.
  - go_crush; unfold count; rewrite ?filter_app, ?length_app; cbn; lia.
  - go_crush; lia.
  - go_crush; lia.
  - go_crush; lia.
  - go_crush; lia.
  - cbn; lia.
Qed.

(** X7. The registry has one writer, the parser. A step of any other
    goroutine, and a call of [Start], [SendPacket] or [Close], leaves the
    registry as it is and makes no [Update]; so does every step of a
    collector whose parser has returned. A collector never has more than
    one parser. *)
Theorem registry_written_by_parser_only :
  (forall t c s r s',
      is_parser t = false ->
      task_step t c s = (r, s') ->
      nodes (coll s') = nodes (coll s) /\
      filter is_Update (trace s') = filter is_Update (trace s))
  /\ (forall d s r s', Start d s = (r, s') ->
      nodes (coll s') = nodes (coll s) /\
      filter is_Update (trace s') = filter is_Update (trace s))
  /\ (forall address s r s', SendPacket address s = (r, s') ->
      nodes (coll s') = nodes (coll s) /\
      filter is_Update (trace s') = filter is_Update (trace s))
  /\ (forall s r s', Close s = (r, s') ->
      nodes (coll s') = nodes (coll s) /\
      filter is_Update (trace s') = filter is_Update (trace s))
  /\ (forall s s', step s s' ->
      count is_parser (goroutines s) = 0 ->
      nodes (coll s') = nodes (coll s) /\
      filter is_Update (trace s') = filter is_Update (trace s))
  /\ (forall s, reachable s -> count is_parser (goroutines s) <= 1).
Proof.
  split; [| split; [| split; [| split; [| split]]]].
  - intros t c s r s'. apply task_step_nodes.
  - intros d s r s' H. go_crush; split; reflexivity.
  - intros a s r s' H. go_crush;
      rewrite ?filter_app; cbn; rewrite ?app_nil_r; split; reflexivity.
  - intros s r s' H. go_crush;
      rewrite ?filter_app; cbn; rewrite ?app_nil_r; split; reflexivity.
  - intros s s' H Hz. inversion H; subst; clear H;
      try (split; reflexivity).
    + pose proof (count_zero_nth _ _ _ _ Hz H0) as Hk.
      destruct (task_step_nodes _ _ _ _ _ Hk H1) as (Hn & Hu).
      destruct n; cbn; split; assumption.
    + pose proof (count_zero_nth _ _ _ _ Hz H0) as Hk.
      destruct (task_step_nodes _ _ _ _ _ Hk H1) as (Hn & Hu).
      cbn; split; assumption.
    + go_crush; split; reflexivity.
    + go_crush; rewrite ?filter_app; cbn; rewrite ?app_nil_r;
        split; reflexivity.
    + go_crush; rewrite ?filter_app; cbn; rewrite ?app_nil_r;
        split; reflexivity.
    + go_crush; rewrite ?filter_app; cbn; rewrite ?app_nil_r;
        split; reflexivity.
    + go_crush; rewrite ?filter_app; cbn; rewrite ?app_nil_r;
        split; reflexivity.
  - intros s (d & n & iface & w & s0 & HN & Hsteps).
    destruct (NewCollector_Ok _ _ _ _ _ HN) as (_ & _ & _ & Hg & _).
    assert (H0 : count is_parser (goroutines s0) <= 1).
    { rewrite Hg. unfold count. destruct d; cbn; lia. }
    clear HN Hg. induction Hsteps as [| s0 s1 s2 _ IH Hstep]; [assumption |].
    pose proof (step_parsers _ _ Hstep). specialize (IH H0). lia.
Qed.

End Invariants.

Section Running.
Context {DS : data.Structs} {RG : @models.Registry DS} {SK : database.Sink}.
Context {NS : net.Stack} {RS : @Respond DS}.

Lemma reachable_sender_interval (s : State) (i : nat) (t : Task) :
  reachable s ->
  nth_error (goroutines s) i = Some t ->
  is_sender t = true ->
  (0 < interval (coll s))%Z.
Proof.
  intros (d & n & iface & w & s0 & HN & Hsteps) Hn Ht.
  destruct (NewCollector_Ok _ _ _ _ _ HN) as (_ & Hc & _ & Hg & _).
  destruct (steps_senders _ _ Hsteps) as (H0 & Hz & _).
  - rewrite Hc. cbn. lia.
  - intros _. rewrite Hg. destruct d; reflexivity.
  - rewrite Hg. unfold count. destruct d; cbn; lia.
  - pose proof (count_nth_pos _ _ Ht _ _ Hn) as Hpos.
    destruct (Z.eq_dec (interval (coll s)) 0) as [E | E]; [| lia].
    specialize (Hz E). lia.
Qed.

(** X8. A goroutine of a collector panics in two ways only: the receiver,
    when it pushes to the closed queue, and the sender, when the multicast
    address does not resolve. The parser, the receiver at its read and the
    global statistics worker never panic, and neither does the making of a
    ticker. *)
Theorem goroutine_panics_two_ways (s s' : State) (i : nat) (t : Task)
  (c : SelectCase) (v : string) :
  reachable s ->
  nth_error (goroutines s) i = Some t ->
  task_step t c s = (Panic v, s') ->
  (exists r, t = receiver_send r /\ closed (queue (coll s)) = true /\
             v = "send on closed channel" /\ s' = s)
  \/ ((t = Start_func \/ t = sender_select) /\
      net.ResolveUDPAddr "udp" (multicastAddr (coll s)) = inr v).
Proof.
  intros Hr Hn H. destruct t.
  - exfalso. go_crush.
  - left. exists r. go_crush. repeat split; reflexivity.
  - exfalso. go_crush.
  - exfalso. unfold task_step, bind, time_NewTicker in H.
    change (time.Minute <=? 0)%Z with false in H. cbn in H. discriminate.
  - exfalso. destruct c.
    + go_crush.
    + pose proof (reachable_worker_db s Hr i _ Hn eq_refl) as Hd.
      destruct (db (coll s)) as [d |] eqn:E; [| congruence].
      unfold task_step, globalStatsWorker_select_step, bind in H.
      rewrite (saveGlobalStats_Ok _ _ E) in H. discriminate.
  - right. split; [left; reflexivity |].
    unfold task_step, sendOnce, bind, get, SendPacket in H.
    destruct (net.ResolveUDPAddr "udp" (multicastAddr (coll s)))
      as [a | e] eqn:E.
    + exfalso. go_crush.
    + go_crush. reflexivity.
  - exfalso.
    pose proof (reachable_sender_interval s i _ Hr Hn eq_refl) as Hpos.
    unfold task_step, bind, get, time_NewTicker in H.
    destruct (Z.leb_spec (interval (coll s)) 0); [lia |].
    cbn in H. discriminate.
  - destruct c.
    + exfalso. go_crush.
    + right. split; [right; reflexivity |].
      unfold task_step, sender_select_step, sendOnce, bind, get,
        SendPacket in H.
      destruct (net.ResolveUDPAddr "udp" (multicastAddr (coll s)))
        as [a | e] eqn:E.
      * exfalso. go_crush.
      * go_crush. reflexivity.
Qed.

Lemma step_stop_empty (s s' : State) :
  step s s' ->
  buf (stop (coll s)) = [] -> buf (stop (coll s')) = [].
Proof.
  intros H; inversion H; subst; clear H; try (intros; assumption);
    try (destruct t); go_crush; intros Hb; congruence.
Qed.

(** X9. Nothing is ever sent on the stop channel, so until it is closed
    the stop case of the two [select]s cannot fire: in a collector whose
    stop channel is open, the sender and the global statistics worker wait
    when no tick comes, and they never return. *)
Theorem loops_wait_for_stop (s : State) :
  reachable s ->
  closed (stop (coll s)) = false ->
  buf (stop (coll s)) = [] /\
  stop_ready s = false /\
  task_step sender_select CaseStop s = (Ok Blocked, s) /\
  task_step globalStatsWorker_select CaseStop s = (Ok Blocked, s) /\
  forall t c s',
    is_sender t = true \/ is_globalStatsWorker t = true ->
    task_step t c s <> (Ok Returned, s').
Proof.
  intros (d & n & iface & w & s0 & HN & Hsteps) Hcl.
  destruct (NewCollector_Ok _ _ _ _ _ HN) as (_ & Hc & _).
  assert (Hb : buf (stop (coll s)) = []).
  { assert (H0 : buf (stop (coll s0)) = []) by (rewrite Hc; reflexivity).
    clear HN Hc Hcl.
    induction Hsteps as [| s0 s1 s2 _ IH Hstep]; [assumption |].
    apply (step_stop_empty _ _ Hstep). auto. }
  assert (Hready : stop_ready s = false).
  { unfold stop_ready, chan_recv. rewrite Hb, Hcl. reflexivity. }
  split; [assumption |]. split; [assumption |].
  split; [cbn; rewrite Hready; reflexivity |].
  split; [cbn; rewrite Hready; reflexivity |].
  intros t c s' Hk H.
  destruct t; cbn in Hk; try (destruct Hk; discriminate);
    destruct c; cbn in H; try rewrite Hready in H; go_crush.
Qed.

Lemma parser_handles (c : SelectCase) :
  forall objs s,
    buf (queue (coll s)) = objs ->
    parser (repeat c (List.length objs)) s =
      (Ok (Goto parser_range), drain objs s) /\
    buf (queue (coll (drain objs s))) = [] /\
    closed (queue (coll (drain objs s))) = closed (queue (coll s)) /\
    filter is_Update (trace (drain objs s)) =
      filter is_Update (trace s) ++
      map (fun obj => EvUpdate (searchNodeID (fst (parse obj)))
                        (fst (parse obj)))
          (filter accepted objs).
Proof.
  unfold parser.
  induction objs as [| obj rest IH]; intros s Hb.
  - cbn. rewrite app_nil_r. repeat split. assumption.
  - set (s1 := set_queue {| buf := rest; cap := cap (queue (coll s));
                            closed := closed (queue (coll s)) |} s).
    destruct (parser_body_Ok obj s1) as (s2 & Hbody & Hq & Hup & _).
    assert (Hb2 : buf (queue (coll s2)) = rest) by (rewrite Hq; reflexivity).
    destruct (IH s2 Hb2) as (Hrun & Hempty & Hcl & Hups).
    assert (Hd : drain (obj :: rest) s = drain rest s2).
    { cbn [drain]. fold s1. rewrite Hbody. reflexivity. }
    rewrite Hd. split; [| split; [| split]].
    + cbn [List.length repeat]. rewrite <- Hrun.
      cbn [run task_step]. unfold bind at 1, parser_step, chan_recv.
      rewrite Hb. fold s1. unfold bind at 1. rewrite Hbody. reflexivity.
    + exact Hempty.
    + rewrite Hcl, Hq. reflexivity.
    + rewrite Hups, Hup. cbn [filter]. rewrite <- app_assoc.
      destruct (accepted obj); reflexivity.
Qed.

(** X10. The parser takes the queued entries in the order in which they
    were queued and runs the body of its loop on each; the registry is
    updated once for every entry that decodes to a payload with a NodeID
    of 12 bytes, in that order. On the queue emptied it waits while the
    queue is open; it returns only from a queue that is closed and
    empty. *)
Theorem parser_handles_in_order (c : SelectCase) (s : State) :
  let objs := buf (queue (coll s)) in
  parser (repeat c (List.length objs)) s =
    (Ok (Goto parser_range), drain objs s)
  /\ buf (queue (coll (drain objs s))) = []
  /\ filter is_Update (trace (drain objs s)) =
       filter is_Update (trace s) ++
       map (fun obj => EvUpdate (searchNodeID (fst (parse obj)))
                         (fst (parse obj)))
           (filter accepted objs)
  /\ (closed (queue (coll s)) = false ->
      task_step parser_range c (drain objs s) = (Ok Blocked, drain objs s))
  /\ (forall s', task_step parser_range c s = (Ok Returned, s') ->
      closed (queue (coll s)) = true /\ objs = [] /\ s' = s).
Proof.
  intros objs.
  destruct (parser_handles c objs s eq_refl) as (Hrun & He & Hcl & Hu).
  split; [assumption |]. split; [assumption |]. split; [assumption |].
  split.
  - intros Hopen. cbn [task_step]. unfold parser_step, chan_recv.
    rewrite He, Hcl, Hopen. reflexivity.
  - intros s' H. subst objs. cbn [task_step] in H.
    unfold parser_step, chan_recv in H.
    destruct (buf (queue (coll s))) as [| obj rest] eqn:Eb.
    + destruct (closed (queue (coll s))); inversion H; auto.
    + exfalso. unfold bind in H.
      destruct (parser_body_Ok obj
                  (set_queue {| buf := rest; cap := cap (queue (coll s));
                                closed := closed (queue (coll s)) |} s))
        as (s2 & Hbody & _).
      rewrite Hbody in H. discriminate.
Qed.

Lemma steps_interval_fixed (s s' : State) :
  steps s s' ->
  interval (coll s) <> 0%Z -> interval (coll s') = interval (coll s).
Proof.
  induction 1 as [| s s' s'' _ IH Hstep]; intros Hi; [reflexivity |].
  specialize (IH Hi).
  destruct (step_senders _ _ Hstep) as [[E _] | [E _]]; congruence.
Qed.

(** X11. The interval given to the [Start] that succeeds is positive and
    is the interval of the collector from then on: nothing changes it, and
    the sender makes its ticker with exactly that period. *)
Theorem interval_fixed_by_Start (s s' s'' : State) (d : Duration)
  (c : SelectCase) :
  Start d s = (Ok tt, s') ->
  steps s' s'' ->
  (0 < d)%Z /\
  interval (coll s'') = d /\
  task_step sender_entry c s'' =
    (Ok (Goto sender_select),
     {| coll := coll s''; trace := trace s'' ++ [EvNewTicker d];
        goroutines := goroutines s''; world := world s'' |}).
Proof.
  intros HS Hsteps.
  assert (H : (0 < d)%Z /\ interval (coll s') = d).
  { unfold Start, bind, get, panic, go in HS.
    destruct (interval (coll s) =? 0)%Z; cbn in HS; [| discriminate].
    destruct (Z.leb_spec d 0); [discriminate |].
    inversion HS; subst; cbn. split; [lia | reflexivity]. }
  destruct H as (Hpos & Hd).
  assert (Hd' : interval (coll s'') = d).
  { rewrite (steps_interval_fixed _ _ Hsteps); [assumption | lia]. }
  split; [assumption |]. split; [assumption |].
  unfold task_step, bind, get, time_NewTicker. rewrite Hd'.
  destruct (Z.leb_spec d 0); [lia | reflexivity].
Qed.

End Running.

(** * From the socket to the registry *)

Section Pipeline.
Context {DS : data.Structs} {RG : @models.Registry DS} {SK : database.Sink}.
Context {NS : net.Stack} {RS : @Respond DS}.

Lemma parser_body_nodes (obj : Response) (s : State) :
  nodes (coll (snd (parser_body obj s))) =
  if accepted obj then merge (nodes (coll s)) obj else nodes (coll s).
Proof.
  unfold parser_body, accepted, merge.
  destruct (parse obj) as [d [err |]]; cbn [fst]; [reflexivity |].
  destruct (Nat.eqb_spec (String.length (searchNodeID d)) 12) as [E | E].
  - rewrite (saveResponse_valid _ _ _ E). reflexivity.
  - rewrite (saveResponse_invalid _ _ _ E). reflexivity.
Qed.

Lemma drain_nodes :
  forall objs s,
    nodes (coll (drain objs s)) =
    fold_left merge (filter accepted objs) (nodes (coll s)).
Proof.
  induction objs as [| obj rest IH]; intros s; [reflexivity |].
  cbn [drain filter]. rewrite IH, parser_body_nodes.
  destruct (accepted obj); reflexivity.
Qed.

End Pipeline.

Section MoreExamples.
#[local] Existing Instance Demo.structs.
#[local] Existing Instance Demo.registry.
#[local] Existing Instance Demo.sink.
#[local] Existing Instance Demo.stack.
#[local] Existing Instance Demo.respond.

Lemma misaddressed_reachable : reachable Demo.misaddressed.
Proof.
  exists None, [], "eth0]", Demo.quiet, (Demo.boot None "eth0]" Demo.quiet).
  split; [reflexivity |].
  eapply steps_step; [apply steps_refl |].
  unfold Demo.misaddressed.
  eapply step_Start with (d := time.Second) (r := Ok tt). reflexivity.
Qed.

(** X1 on the three datagrams of the busy world. *)
Lemma receiver_queues_in_order_witness :
  exists s',
    receiver (repeat CaseTick 6) (Demo.boot (Some tt) "eth0" Demo.busy) =
      (Ok (Goto receiver_read), s') /\
    buf (queue (coll s')) = [Demo.stats_entry; Demo.garbage; Demo.short] /\
    inbox (world s') = [].
Proof.
  destruct (receiver_queues_in_order CaseTick Demo.arrivals []
              (Demo.boot (Some tt) "eth0" Demo.busy)
              eq_refl eq_refl eq_refl)
    as (s' & H1 & H2 & _ & H3 & _).
  - cbn. lia.
  - exists s'. split; [exact H1 |]. split; [exact H2 | exact H3].
Defined.

(** X2 on a queue that holds 400 entries. *)
Lemma receiver_blocks_on_full_queue_witness :
  let r := receiver [CaseTick; CaseTick; CaseTick] Demo.full in
  fst r = Ok Blocked /\
  List.length (buf (queue (coll (snd r)))) = 400 /\
  List.length (inbox (world (snd r))) = 2.
Proof.
  assert (H : cap (queue (coll Demo.full)) <=
              List.length (buf (queue (coll Demo.full)))).
  { apply Nat.leb_le. vm_compute. reflexivity. }
  pose proof (receiver_blocks_on_full_queue Demo.full
                (Demo.datagram x02 "aabbccddeeff") Demo.peer
                [inl ([xff; xfe], Demo.peer);
                 inl (Demo.datagram x03 "short", Demo.peer)]
                CaseTick CaseTick [CaseTick] eq_refl eq_refl H eq_refl)
    as E.
  cbv zeta. rewrite E. repeat split.
Defined.

(** X3 on the collector that was closed. *)
Lemma receiver_ends_for_good_witness :
  fst (task_step receiver_read CaseTick Demo.closed_down) = Ok Returned /\
  queue (coll (snd (task_step receiver_read CaseTick Demo.closed_down))) =
    queue (coll Demo.closed_down).
Proof.
  destruct receiver_ends_for_good as (H & _).
  rewrite (H Demo.closed_down CaseTick eq_refl). split; reflexivity.
Defined.

(** X4 on the started collector and three ticks. *)
Lemma sender_requests_every_tick_witness :
  exists s' tr,
    run (repeat CaseTick 5) Start_func Demo.started =
      (Ok (Goto sender_select), s') /\
    trace s' = trace Demo.started ++ tr /\
    writes tr =
      repeat (request, "[ff02:0:0:0:0:0:2:1001%eth0]:1001") 4 /\
    tickers tr = [time.Minute].
Proof.
  destruct (sender_requests_every_tick Demo.started
              "[ff02:0:0:0:0:0:2:1001%eth0]:1001" 3 eq_refl eq_refl)
    as (s' & tr & H1 & _ & H2 & H3 & H4 & _).
  exists s', tr. repeat split; assumption.
Defined.

(** X5 on the collector with three queued entries. *)
Lemma Close_twice_panics_witness :
  Close Demo.closed_down =
  (Panic "close of closed channel", Demo.closed_down).
Proof.
  apply (Close_twice_panics (Demo.loaded (Some tt)) Demo.closed_down
           Demo.closed_down eq_refl).
  apply steps_refl.
Defined.


(** X7 on a read of the receiver. *)
Lemma registry_written_by_parser_only_witness :
  nodes (coll (snd (task_step receiver_read CaseTick
                      (Demo.boot (Some tt) "eth0" Demo.busy)))) = [].
Proof.
  destruct registry_written_by_parser_only as (H & _).
  destruct (H receiver_read CaseTick (Demo.boot (Some tt) "eth0" Demo.busy)
              _ _ eq_refl eq_refl) as (Hn & _).
  exact Hn.
Defined.

(** X8 on the sender of a collector whose multicast address does not
    resolve. *)
Lemma goroutine_panics_two_ways_witness :
  fst (task_step Start_func CaseTick Demo.misaddressed) =
    Panic "address [ff02:0:0:0:0:0:2:1001%eth0]]:1001: missing port in address"
  /\ net.ResolveUDPAddr "udp" (multicastAddr (coll Demo.misaddressed)) =
     inr "address [ff02:0:0:0:0:0:2:1001%eth0]]:1001: missing port in address".
Proof.
  split; [reflexivity |].
  destruct (goroutine_panics_two_ways Demo.misaddressed
              (snd (task_step Start_func CaseTick Demo.misaddressed))
              2 Start_func CaseTick _ misaddressed_reachable
              eq_refl eq_refl)
    as [(r & Hr & _) | (_ & H)]; [discriminate | exact H].
Defined.

(** X9 on the collector whose worker waits at its [select]. *)
Lemma loops_wait_for_stop_witness :
  task_step globalStatsWorker_select CaseStop Demo.ticking =
  (Ok Blocked, Demo.ticking).
Proof.
  destruct (loops_wait_for_stop Demo.ticking ticking_reachable eq_refl)
    as (_ & _ & _ & H & _).
  exact H.
Defined.

(** X10 on the collector with three queued entries. *)
Lemma parser_handles_in_order_witness :
  exists s',
    parser (repeat CaseTick 3) (Demo.loaded (Some tt)) =
      (Ok (Goto parser_range), s') /\
    task_step parser_range CaseTick s' = (Ok Blocked, s').
Proof.
  pose proof (parser_handles_in_order CaseTick (Demo.loaded (Some tt))) as H.
  cbv zeta in H.
  change (buf (queue (coll (Demo.loaded (Some tt)))))
    with [Demo.stats_entry; Demo.garbage; Demo.short] in H.
  destruct H as (H1 & _ & _ & H2 & _).
  eexists. split; [exact H1 | exact (H2 eq_refl)].
Defined.

(** X11 on a [Start] with an interval of one minute. *)
Lemma interval_fixed_by_Start_witness :
  interval (coll Demo.started) = time.Minute /\
  fst (task_step sender_entry CaseTick Demo.started) =
    Ok (Goto sender_select).
Proof.
  destruct (interval_fixed_by_Start (Demo.boot None "eth0" Demo.quiet)
              Demo.started Demo.started time.Minute CaseTick eq_refl
              (steps_refl _))
    as (_ & H1 & H2).
  split; [exact H1 | rewrite H2; reflexivity].
Defined.

End MoreExamples.

(** * The pipeline in any schedule *)

Section AnySchedule.
Context {DS : data.Structs} {RG : @models.Registry DS} {SK : database.Sink}.
Context {NS : net.Stack} {RS : @Respond DS}.

Lemma held_of_bystander (t : Task) : is_receiver t = false -> held_of t = [].
Proof. destruct t; cbn; intros H; try reflexivity; discriminate. Qed.

Lemma held_nil (l : list Task) : count is_receiver l = 0 -> held l = [].
Proof.
  unfold count, held. induction l as [| x l IH]; cbn; [reflexivity |].
  destruct (is_receiver x) eqn:E; cbn; [discriminate |].
  intros H. rewrite (held_of_bystander x E), (IH H). reflexivity.
Qed.

Lemma held_replace_bystander (t t' : Task) :
  held_of t = [] -> held_of t' = [] ->
  forall l i, nth_error l i = Some t ->
    held (replace_nth i t' l) = held l.
Proof.
  intros Ht Ht'. unfold held.
  induction l as [| x l IH]; intros [| i] Hn; cbn in *; try discriminate.
  - inversion Hn; subst. rewrite Ht, Ht'. reflexivity.
  - rewrite (IH i Hn). reflexivity.
Qed.

Lemma held_remove_bystander (t : Task) :
  held_of t = [] ->
  forall l i, nth_error l i = Some t -> held (remove_nth i l) = held l.
Proof.
  intros Ht. unfold held.
  induction l as [| x l IH]; intros [| i] Hn; cbn in *; try discriminate.
  - inversion Hn; subst. rewrite Ht. reflexivity.
  - rewrite (IH i Hn). reflexivity.
Qed.

Lemma held_receiver (t : Task) :
  is_receiver t = true ->
  forall l i,
    count is_receiver l <= 1 ->
    nth_error l i = Some t ->
    held l = held_of t /\
    (forall t', held (replace_nth i t' l) = held_of t') /\
    held (remove_nth i l) = [].
Proof.
  intros Ht.
  induction l as [| x l IH]; intros [| i] Hc Hn; cbn in Hn; try discriminate.
  - inversion Hn; subst x.
    assert (Hz : count is_receiver l = 0).
    { unfold count in *. cbn in Hc. rewrite Ht in Hc. cbn in Hc. lia. }
    pose proof (held_nil l Hz) as Hl.
    unfold held in *. cbn. rewrite Hl, app_nil_r.
    split; [reflexivity |]. split; [| reflexivity].
    intros t'. apply app_nil_r.
  - destruct (is_receiver x) eqn:Ex.
    + exfalso.
      assert (Hz : count is_receiver l = 0).
      { unfold count in *. cbn in Hc. rewrite Ex in Hc. cbn in Hc. lia. }
      pose proof (count_nth_pos is_receiver t Ht l i Hn). lia.
    + assert (Hc' : count is_receiver l <= 1).
      { unfold count in *. cbn in Hc. rewrite Ex in Hc. exact Hc. }
      destruct (IH i Hc' Hn) as (H1 & H2 & H3).
      unfold held in *. cbn. rewrite (held_of_bystander x Ex). cbn.
      split; [exact H1 |]. split; [exact H2 | exact H3].
Qed.

Lemma parser_body_frame (obj : Response) (s : State) :
  world (snd (parser_body obj s)) = world s /\
  goroutines (snd (parser_body obj s)) = goroutines s /\
  queue (coll (snd (parser_body obj s))) = queue (coll s).
Proof.
  unfold parser_body.
  destruct (parse obj) as [d [err |]]; [repeat split |].
  destruct (Nat.eqb_spec (String.length (searchNodeID d)) 12) as [E | E].
  - rewrite (saveResponse_valid _ _ _ E). repeat split.
  - rewrite (saveResponse_invalid _ _ _ E). repeat split.
Qed.

(** A goroutine that is neither the receiver nor the parser leaves the
    queue, the registry and the socket's inbox alone. *)
Lemma task_step_bystander (t : Task) (c : SelectCase) (s s' : State)
  (n : Next) :
  is_receiver t = false ->
  is_parser t = false ->
  task_step t c s = (Ok n, s') ->
  queue (coll s') = queue (coll s) /\
  nodes (coll s') = nodes (coll s) /\
  inbox (world s') = inbox (world s) /\
  goroutines s' = goroutines s /\
  filter is_Update (trace s') = filter is_Update (trace s).
Proof.
  intros Hr Hp H. destruct t; try discriminate; go_crush;
    rewrite ?filter_app; cbn; rewrite ?app_nil_r; repeat split.
Qed.

Ltac state_fields :=
  cbn [settle set_goroutines set_world set_queue coll trace goroutines world
       queue buf nodes inbox with_inbox cap closed fst snd].

Lemma task_progress (s s1 : State) (i : nat) (t : Task) (c : SelectCase)
  (n : Next) :
  count is_receiver (goroutines s) <= 1 ->
  nth_error (goroutines s) i = Some t ->
  task_step t c s = (Ok n, s1) ->
  exists done,
    pending s = done ++ pending (settle i n s1) /\
    nodes (coll (settle i n s1)) =
      fold_left merge (filter accepted done) (nodes (coll s)) /\
    filter is_Update (trace (settle i n s1)) =
      filter is_Update (trace s) ++ map update_of (filter accepted done).
Proof.
  intros Hc Hn H.
  destruct (is_receiver t) eqn:Er.
  - (* the receiver *)
    destruct (held_receiver t Er _ _ Hc Hn) as (Hh & Hrep & Hrem).
    exists []. unfold pending. destruct t; try discriminate.
    + (* at its read *)
      unfold task_step, receiver_read_step, bind, ReadFromUDP in H.
      destruct (conn_closed (connection (coll s))).
      * inversion H; subst; clear H. state_fields.
        rewrite Hrem, Hh, filter_app. cbn. rewrite !app_nil_r.
        repeat split.
      * destruct (inbox (world s)) as [| [[d src] | err] rest] eqn:Ei.
        -- inversion H; subst; clear H. state_fields. rewrite Ei.
           cbn. rewrite !app_nil_r. repeat split.
        -- inversion H; subst; clear H. state_fields.
           rewrite Hrep, Hh. cbn. rewrite !app_nil_r. repeat split.
        -- inversion H; subst; clear H. state_fields.
           rewrite Hrem, Hh, filter_app. cbn. rewrite !app_nil_r.
           repeat split.
    + (* at its push *)
      unfold task_step, receiver_send_step, chan_send in H.
      destruct (closed (queue (coll s))); [discriminate |].
      destruct (Nat.ltb (List.length (buf (queue (coll s))))
                  (cap (queue (coll s)))).
      * inversion H; subst; clear H. state_fields.
        rewrite Hrep, Hh. cbn. rewrite <- !app_assoc, !app_nil_r.
        repeat split.
      * inversion H; subst; clear H. state_fields. cbn.
        rewrite !app_nil_r. repeat split.
  - destruct (is_parser t) eqn:Ep.
    + (* the parser *)
      destruct t; try discriminate.
      pose proof (held_replace_bystander parser_range parser_range
                    eq_refl eq_refl _ _ Hn) as Hrep.
      pose proof (held_remove_bystander parser_range eq_refl _ _ Hn)
        as Hrem.
      unfold task_step, parser_step, chan_recv in H.
      destruct (buf (queue (coll s))) as [| obj rest] eqn:Eb.
      * exists []. unfold pending.
        destruct (closed (queue (coll s))); inversion H; subst; clear H;
          state_fields; rewrite ?Hrem, Eb; cbn; rewrite !app_nil_r;
          repeat split.
      * set (s0 := set_queue {| buf := rest; cap := cap (queue (coll s));
                                closed := closed (queue (coll s)) |} s)
          in *.
        destruct (parser_body_Ok obj s0) as (s2 & Hbody & Hq & Hu & _).
        pose proof (parser_body_frame obj s0) as (Hw & Hg & _).
        pose proof (parser_body_nodes obj s0) as Hnodes.
        rewrite Hbody in Hw, Hg, Hnodes. cbn [snd] in Hw, Hg, Hnodes.
        unfold bind in H. rewrite Hbody in H. unfold ret in H.
        inversion H; subst n s1; clear H.
        exists [obj]. unfold pending. state_fields.
        rewrite Hq, Hw, Hg, Hnodes, Hu. unfold s0. state_fields.
        rewrite Hrep, Eb. cbn [filter].
        destruct (accepted obj); cbn; rewrite ?app_nil_r; repeat split.
    + (* the sender and the global statistics worker *)
      destruct (task_step_bystander _ _ _ _ _ Er Ep H)
        as (Hq & Hno & Hi & Hg & Hu).
      exists []. unfold pending.
      assert (Hheld : held (goroutines (settle i n s1)) =
                      held (goroutines s)).
      { destruct n as [t' | |]; state_fields; rewrite Hg.
        - destruct (task_step_kind_receiver _ _ _ _ _ H) as (Hk & _).
          apply (held_replace_bystander t t'); auto using held_of_bystander.
          apply held_of_bystander. congruence.
        - reflexivity.
        - apply (held_remove_bystander t); auto using held_of_bystander. }
      rewrite Hheld.
      destruct n; state_fields; rewrite Hq, Hi, Hno, Hu; cbn;
        rewrite !app_nil_r; repeat split.
Qed.

(** X13. In a collector with at most one receiver, as every collector made
    by [NewCollector] is, and in any run of its goroutines in which none
    panics, however their steps are interleaved: the entries that the
    parser has handled are the first of those that were on their way to it
    at the start of the run (the queue, then the entry held by the receiver,
    then the datagrams at the socket), the others still being on their way
    in the same order; the registry is the result of merging, in that
    order, the handled entries that decode to a payload with a NodeID of 12
    bytes, and one [Update] has been made for each of them. *)
Theorem entries_merged_in_arrival_order (s s' : State) :
  count is_receiver (goroutines s) <= 1 ->
  runs s s' ->
  exists done,
    pending s = done ++ pending s' /\
    nodes (coll s') =
      fold_left merge (filter accepted done) (nodes (coll s)) /\
    filter is_Update (trace s') =
      filter is_Update (trace s) ++ map update_of (filter accepted done).
Proof.
  intros Hc Hruns.
  assert (H : count is_receiver (goroutines s') <= 1 /\
              exists done,
                pending s = done ++ pending s' /\
                nodes (coll s') =
                  fold_left merge (filter accepted done) (nodes (coll s)) /\
                filter is_Update (trace s') =
                  filter is_Update (trace s) ++
                  map update_of (filter accepted done));
    [| exact (proj2 H)].
  induction Hruns as [s | s s1 i t c n s2 _ IH Hn Hstep].
  - split; [assumption |]. exists []. cbn. rewrite app_nil_r. repeat split.
  - destruct (IH Hc) as (Hc1 & done & Hp & Hno & Hu).
    split.
    + assert (Hst : step s1 (settle i n s2))
        by (eapply step_task; eassumption).
      pose proof (step_receivers _ _ Hst). lia.
    + destruct (task_progress s1 s2 i t c n Hc1 Hn Hstep)
        as (done' & Hp' & Hno' & Hu').
      exists (done ++ done'). split; [| split].
      * rewrite Hp, Hp', app_assoc. reflexivity.
      * rewrite Hno', Hno, filter_app, fold_left_app. reflexivity.
      * rewrite Hu', Hu, filter_app, map_app, app_assoc. reflexivity.
Qed.

End AnySchedule.

(** * Close while the receiver is at its push *)

Section Race.
Context {DS : data.Structs} {RG : @models.Registry DS} {SK : database.Sink}.
Context {NS : net.Stack} {RS : @Respond DS}.

(** Without a parser and without a receiver the queue stays as it is and
    [saveResponse] is not run. *)
Lemma step_idle (s s' : State) :
  step s s' ->
  count is_parser (goroutines s) = 0 ->
  count is_receiver (goroutines s) = 0 ->
  buf (queue (coll s')) = buf (queue (coll s)) /\
  filter is_saved (trace s') = filter is_saved (trace s).
Proof.
  intros H Hp Hr; inversion H; subst; clear H;
    try (split; reflexivity).
  - pose proof (count_zero_nth _ _ _ _ Hp H0) as Kp.
    pose proof (count_zero_nth _ _ _ _ Hr H0) as Kr.
    destruct t; try discriminate; go_crush;
      rewrite ?filter_app; cbn; rewrite ?app_nil_r; split; reflexivity.
  - pose proof (count_zero_nth _ _ _ _ Hp H0) as Kp.
    pose proof (count_zero_nth _ _ _ _ Hr H0) as Kr.
    destruct t; try discriminate; go_crush;
      rewrite ?filter_app; cbn; rewrite ?app_nil_r; split; reflexivity.
  - go_crush; split; reflexivity.
  - go_crush; rewrite ?filter_app; cbn; rewrite ?app_nil_r;
      split; reflexivity.
  - go_crush; rewrite ?filter_app; cbn; rewrite ?app_nil_r;
      split; reflexivity.
  - go_crush; rewrite ?filter_app; cbn; rewrite ?app_nil_r;
      split; reflexivity.
  - go_crush; rewrite ?filter_app; cbn; rewrite ?app_nil_r;
      split; reflexivity.
Qed.

Lemma steps_idle (s s' : State) :
  steps s s' ->
  count is_parser (goroutines s) = 0 ->
  count is_receiver (goroutines s) = 0 ->
  count is_parser (goroutines s') = 0 /\
  count is_receiver (goroutines s') = 0 /\
  buf (queue (coll s')) = buf (queue (coll s)) /\
  filter is_saved (trace s') = filter is_saved (trace s).
Proof.
  induction 1 as [| s s1 s2 _ IH Hstep]; intros Hp Hr.
  - repeat split; assumption.
  - destruct (IH Hp Hr) as (Hp1 & Hr1 & Hb & Ht).
    pose proof (step_parsers _ _ Hstep).
    pose proof (step_receivers _ _ Hstep).
    destruct (step_idle _ _ Hstep Hp1 Hr1) as (Hb' & Ht').
    repeat split; try lia; congruence.
Qed.

(** C8. What the code does where the claim fails. [Close] does not wait
    for the receiver. Called on a collector whose receiver has read a
    datagram and is at its push, [Close] returns after closing the stop
    channel, the socket and the queue, in this order, with the queued
    entries still in the queue. The push of the receiver then panics with
    "send on closed channel", and the panic of a goroutine ends them all,
    the parser included. From then on, whatever happens, the collector has
    no parser, the entries that were queued before [Close] stay in the
    queue, and [saveResponse] is run on none of them. *)
Theorem C8_close_races_with_receiver (s : State) (i : nat) (r : Response)
  (c : SelectCase) :
  closed (stop (coll s)) = false ->
  closed (queue (coll s)) = false ->
  nth_error (goroutines s) i = Some (receiver_send r) ->
  exists s',
    Close s = (Ok tt, s')
    /\ trace s' = trace s ++ [EvClose ch_stop; EvConnClose; EvClose ch_queue]
    /\ buf (queue (coll s')) = buf (queue (coll s))
    /\ nth_error (goroutines s') i = Some (receiver_send r)
    /\ task_step (receiver_send r) c s' =
         (Panic "send on closed channel", s')
    /\ step s' (set_goroutines [] s')
    /\ forall s'', steps (set_goroutines [] s') s'' ->
         count is_parser (goroutines s'') = 0 /\
         buf (queue (coll s'')) = buf (queue (coll s)) /\
         filter is_saved (trace s'') = filter is_saved (trace s).
Proof.
  intros Hstop Hqueue Hn.
  unfold Close, close_stop, close_queue, connection_Close, bind, chan_close,
    emit, set_stop, set_queue, set_connection.
  rewrite Hstop. cbn. rewrite Hqueue. cbn.
  eexists. split; [reflexivity |].
  match goal with |- context [trace ?st = _] => set (s' := st) end.
  assert (Htr : trace s' =
                trace s ++ [EvClose ch_stop; EvConnClose; EvClose ch_queue])
    by (cbn; rewrite <- !app_assoc; reflexivity).
  assert (Hpanic : task_step (receiver_send r) c s' =
                   (Panic "send on closed channel", s')) by reflexivity.
  split; [exact Htr |]. split; [reflexivity |]. split; [exact Hn |].
  split; [exact Hpanic |]. split.
  - eapply step_task_panic with (i := i) (t := receiver_send r) (c := c);
      [exact Hn | exact Hpanic].
  - intros s'' Hsteps.
    destruct (steps_idle _ _ Hsteps eq_refl eq_refl)
      as (Hp & _ & Hb & Ht).
    split; [exact Hp |]. split; [exact Hb |].
    rewrite Ht. cbn [set_goroutines trace]. rewrite Htr, filter_app. cbn.
    apply app_nil_r.
Qed.

End Race.

Section LastExamples.
#[local] Existing Instance Demo.structs.
#[local] Existing Instance Demo.registry.
#[local] Existing Instance Demo.sink.
#[local] Existing Instance Demo.stack.
#[local] Existing Instance Demo.respond.

Lemma racing_steps :
  steps (Demo.boot (Some tt) "eth0" Demo.busy) Demo.racing.
Proof.
  eapply steps_step; [eapply steps_step; [eapply steps_step;
    [apply steps_refl |] |] |].
  - eapply step_task with (i := 0) (t := receiver_read) (c := CaseTick)
                          (n := Goto (receiver_send Demo.stats_entry));
      reflexivity.
  - eapply step_task with (i := 0) (t := receiver_send Demo.stats_entry)
                          (c := CaseTick) (n := Goto receiver_read);
      reflexivity.
  - unfold Demo.racing.
    eapply step_task with (i := 0) (t := receiver_read) (c := CaseTick);
      reflexivity.
Qed.

Lemma interleaved_runs :
  runs (Demo.boot (Some tt) "eth0" Demo.busy) Demo.interleaved.
Proof.
  unfold Demo.interleaved.
  eapply runs_task with (s' := Demo.racing) (i := 1) (t := parser_range)
                        (c := CaseTick);
    [| reflexivity | reflexivity].
  unfold Demo.racing.
  eapply runs_task with (s' := Demo.queued_one) (i := 0)
                        (t := receiver_read) (c := CaseTick);
    [| reflexivity | reflexivity].
  unfold Demo.queued_one.
  eapply runs_task with (s' := Demo.holding) (i := 0)
                        (t := receiver_send Demo.stats_entry)
                        (c := CaseTick);
    [| reflexivity | reflexivity].
  unfold Demo.holding.
  eapply runs_task with (s' := Demo.boot (Some tt) "eth0" Demo.busy)
                        (i := 0) (t := receiver_read) (c := CaseTick);
    [| reflexivity | reflexivity].
  apply runs_refl.
Qed.

(** C8 on the collector made by [NewCollector] whose receiver has queued
    the statistics of a node and holds the next datagram: after [Close]
    the push panics, no goroutine is left, and the statistics, which
    decode to a NodeID of 12 bytes, are still in the queue with nothing
    saved. *)
Lemma C8_witness :
  reachable Demo.racing /\
  buf (queue (coll Demo.racing)) = [Demo.stats_entry] /\
  accepted Demo.stats_entry = true /\
  exists s',
    Close Demo.racing = (Ok tt, s') /\
    task_step (receiver_send Demo.garbage) CaseTick s' =
      (Panic "send on closed channel", s') /\
    step s' (set_goroutines [] s') /\
    buf (queue (coll (set_goroutines [] s'))) = [Demo.stats_entry] /\
    filter is_saved (trace (set_goroutines [] s')) = [].
Proof.
  split.
  { exists (Some tt), [], "eth0", Demo.busy,
      (Demo.boot (Some tt) "eth0" Demo.busy).
    split; [reflexivity | exact racing_steps]. }
  split; [reflexivity |]. split; [reflexivity |].
  destruct (C8_close_races_with_receiver Demo.racing 0 Demo.garbage
              CaseTick eq_refl eq_refl eq_refl)
    as (s' & H1 & _ & _ & _ & H2 & H3 & H4).
  exists s'. split; [exact H1 |]. split; [exact H2 |]. split; [exact H3 |].
  destruct (H4 _ (steps_refl _)) as (_ & Hb & Ht).
  split; [exact Hb | exact Ht].
Defined.

(** X13 on a run in which the receiver reads, queues and reads again
    before the parser handles the first entry. *)
Lemma entries_merged_in_arrival_order_witness :
  exists done,
    [Demo.stats_entry; Demo.garbage; Demo.short] =
      done ++ pending Demo.interleaved /\
    nodes (coll Demo.interleaved) =
      fold_left merge (filter accepted done) [] /\
    pending Demo.interleaved = [Demo.garbage; Demo.short].
Proof.
  assert (Hc : count is_receiver
                 (goroutines (Demo.boot (Some tt) "eth0" Demo.busy)) <= 1).
  { unfold count. cbn. lia. }
  destruct (entries_merged_in_arrival_order
              (Demo.boot (Some tt) "eth0" Demo.busy) Demo.interleaved
              Hc interleaved_runs)
    as (done & H1 & H2 & _).
  exists done. split; [exact H1 |]. split; [exact H2 | reflexivity].
Defined.

End LastExamples.
